(** * Mergin Media Sync: configuration validation and the sync daemon

    A shallow embedding of [config.py] ([validate_config]) and of
    [media_sync_daemon.py] ([run_sync_cycle], [main]) together with the
    properties the specification states about them.

    Python objects are dynamically typed, attribute reads and calls may
    raise, and the daemon talks to the outside world (Mergin server, storage
    driver, clock, file system).  The embedding therefore has three layers:

    - [Py]: the Python values a YAML configuration is made of, exceptions,
      and the error monad [result] in which attribute reads are evaluated;
    - [Config]: [validate_config], statement by statement;
    - [Daemon]: [run_sync_cycle] and [main] in a monad that records the
      observable events (log lines and external calls) and whose answers
      from the outside world are read from a [world] record. *)

From Stdlib Require Import ZArith List String Ascii Bool Lia DecimalString.
Import ListNotations.
Open Scope string_scope.
Open Scope Z_scope.

(* ===================================================================== *)
(** ** Python values, exceptions and the error monad *)
(* ===================================================================== *)

Module Py.

(** The exception classes the two source files name or can meet.  [OSError]
    is the class Python 3 binds to the name [IOError].  [ConfigError] is
    declared in [config.py] as a direct subclass of [Exception];
    [DriverError] and [MediaSyncError] are imported from other modules and
    are handled by separate [except] clauses in [main].  All classes here
    derive from [Exception] and none derives from another one of the list. *)
Inductive exn_class :=
| ConfigError
| OSError
| DriverError
| MediaSyncError
| AttributeError
| TypeError
| KeyError
| ValueError
| RuntimeError.

Definition exn_class_eqb (a b : exn_class) : bool :=
  match a, b with
  | ConfigError, ConfigError | OSError, OSError | DriverError, DriverError
  | MediaSyncError, MediaSyncError | AttributeError, AttributeError
  | TypeError, TypeError | KeyError, KeyError | ValueError, ValueError
  | RuntimeError, RuntimeError => true
  | _, _ => false
  end.

(** An exception instance: its class and [str(e)]. *)
Record exn := Exn { exn_cls : exn_class; exn_msg : string }.

(** A computation that returns or raises. *)
Inductive result (A : Type) :=
| Ret (a : A)
| Raise (e : exn).
Arguments Ret {A} a.
Arguments Raise {A} e.

Definition bind {A B} (m : result A) (k : A -> result B) : result B :=
  match m with
  | Ret a => k a
  | Raise e => Raise e
  end.

Definition raises {A} (m : result A) (c : exn_class) : Prop :=
  exists msg, m = Raise (Exn c msg).

(** The values a configuration holds: YAML scalars, lists, and mappings
    read with attribute syntax ([config.mergin.username]).  A mapping keeps
    its keys in order. *)
#[warnings="-register-all"]
Inductive value :=
| VNone
| VBool (b : bool)
| VInt (z : Z)
| VStr (s : string)
| VList (items : list value)
| VBox (fields : list (string * value)).

Fixpoint assoc (k : string) (fs : list (string * value)) : option value :=
  match fs with
  | [] => None
  | (k', v) :: fs' => if String.eqb k k' then Some v else assoc k fs'
  end.

(** [o.name]: an attribute that is not there raises [AttributeError]; this
    is what [hasattr] (line 47 of [config.py]) tests for.  A key stands for
    the setting it names: the settings object takes no notice of the case
    of a key, and a mapping here holds each setting under one spelling,
    the lower-case one of the source. *)
Definition getattr (o : value) (name : string) : result value :=
  match o with
  | VBox fs =>
      match assoc name fs with
      | Some v => Ret v
      | None => Raise (Exn AttributeError name)
      end
  | _ => Raise (Exn AttributeError name)
  end.

(** [hasattr(o, name)]: whether [getattr] succeeds. *)
Definition hasattr (o : value) (name : string) : bool :=
  match getattr o name with
  | Ret _ => true
  | Raise _ => false
  end.

(** [bool(v)]. *)
Definition truthy (v : value) : bool :=
  match v with
  | VNone => false
  | VBool b => b
  | VInt z => negb (z =? 0)
  | VStr s => negb (String.eqb s "")
  | VList l => match l with [] => false | _ => true end
  | VBox fs => match fs with [] => false | _ => true end
  end.

(** [len(v)]. *)
Definition len (v : value) : result Z :=
  match v with
  | VStr s => Ret (Z.of_nat (String.length s))
  | VList l => Ret (Z.of_nat (List.length l))
  | VBox fs => Ret (Z.of_nat (List.length fs))
  | _ => Raise (Exn TypeError "object has no len()")
  end.

(** [v == s] for a string literal [s]. *)
Definition eq_str (v : value) (s : string) : bool :=
  match v with
  | VStr s' => String.eqb s' s
  | _ => false
  end.

(** [v in [s1, ..., sn]] for string literals. *)
Definition in_strs (v : value) (l : list string) : bool :=
  existsb (eq_str v) l.

(** [v == True]: [bool] is a subclass of [int], so [1 == True] holds. *)
Definition eq_True (v : value) : bool :=
  match v with
  | VBool b => b
  | VInt z => z =? 1
  | _ => false
  end.

Fixpoint chars (s : string) : list value :=
  match s with
  | EmptyString => []
  | String a s' => VStr (String a EmptyString) :: chars s'
  end.

(** The sequence a [for] loop walks through. *)
Definition iter (v : value) : result (list value) :=
  match v with
  | VList l => Ret l
  | VStr s => Ret (chars s)
  | VBox fs => Ret (map (fun kv => VStr (fst kv)) fs)
  | _ => Raise (Exn TypeError "object is not iterable")
  end.

(** [x and y]: [y] is only looked at when [x] is true. *)
Definition and_then (x y : result value) : result value :=
  bind x (fun a => if truthy a then y else Ret a).

(** Replace (or add) the binding of attribute [k]. *)
Fixpoint set_field (k : string) (v : value) (fs : list (string * value))
  : list (string * value) :=
  match fs with
  | [] => [(k, v)]
  | (k', v') :: fs' =>
      if String.eqb k k' then (k, v) :: fs' else (k', v') :: set_field k v fs'
  end.

Definition setattr (o : value) (k : string) (v : value) : value :=
  match o with
  | VBox fs => VBox (set_field k v fs)
  | _ => o
  end.

End Py.

Module PyNotations.
Notation "x <- m ;; k" := (Py.bind m (fun x => k))
  (at level 61, m at next level, right associativity).
End PyNotations.

(* ===================================================================== *)
(** ** config.py *)
(* ===================================================================== *)

Module Config.
Import Py PyNotations.

Definition config_error (msg : string) : result unit :=
  Raise (Exn ConfigError msg).

(** [all(hasattr(ref, attr) for attr in attrs)] *)
Definition has_all_attrs (ref : value) (attrs : list string) : bool :=
  forallb (hasattr ref) attrs.

Definition reference_attrs : list string :=
  ["file"; "table"; "local_path_column"; "driver_path_column"].

(** The body of [for ref in config.references: ...]. *)
Fixpoint check_references (refs : list value) : result unit :=
  match refs with
  | [] => Ret tt
  | ref :: refs' =>
      if negb (has_all_attrs ref reference_attrs)
      then config_error "Config error: Incorrect media reference settings"
      else check_references refs'
  end.

(** [config.a.b] *)
Definition getattr2 (o : value) (a b : string) : result value :=
  x <- getattr o a ;; getattr x b.

(** [not (config.name and len(config.name))] *)
Definition empty_setting (config : value) (name : string) : result bool :=
  x <- getattr config name ;;
  if truthy x
  then (y <- getattr config name ;; n <- len y ;; Ret (n =? 0))
  else Ret true.

(** Line 24: the Mergin credentials and project. *)
Definition check_mergin (config : value) : result unit :=
  m <- and_then (getattr2 config "mergin" "username")
         (and_then (getattr2 config "mergin" "password")
                   (getattr2 config "mergin" "project_name")) ;;
  if negb (truthy m)
  then config_error "Config error: Incorrect mergin settings"
  else Ret tt.

(** Line 27. *)
Definition check_driver (config : value) : result unit :=
  d <- getattr config "driver" ;;
  if negb (in_strs d ["local"; "minio"])
  then config_error "Config error: Unsupported driver"
  else Ret tt.

(** Line 30. *)
Definition check_operation_mode (config : value) : result unit :=
  o <- getattr config "operation_mode" ;;
  if negb (in_strs o ["move"; "copy"])
  then config_error "Config error: Unsupported operation mode"
  else Ret tt.

(** Line 33: [config.local.dest] is read only when the driver is local. *)
Definition check_local (config : value) : result unit :=
  d <- getattr config "driver" ;;
  bad <- (if eq_str d "local"
          then (x <- getattr2 config "local" "dest" ;; Ret (negb (truthy x)))
          else Ret false) ;;
  if (bad : bool)
  then config_error "Config error: Incorrect Local driver settings"
  else Ret tt.

(** Line 36. *)
Definition check_minio (config : value) : result unit :=
  d <- getattr config "driver" ;;
  bad <- (if eq_str d "minio"
          then (x <- and_then (getattr2 config "minio" "endpoint")
                    (and_then (getattr2 config "minio" "access_key")
                       (and_then (getattr2 config "minio" "secret_key")
                                 (getattr2 config "minio" "bucket"))) ;;
                Ret (negb (truthy x)))
          else Ret false) ;;
  if (bad : bool)
  then config_error "Config error: Incorrect MinIO driver settings"
  else Ret tt.

(** Line 39. *)
Definition check_allowed_extensions (config : value) : result unit :=
  no_ext <- empty_setting config "allowed_extensions" ;;
  if (no_ext : bool)
  then config_error "Config error: Allowed extensions can not be empty"
  else Ret tt.

(** Lines 42-48. *)
Definition check_references_on (config : value) : result unit :=
  r <- getattr config "references_on" ;;
  if eq_True r
  then (no_refs <- empty_setting config "references" ;;
        if (no_refs : bool)
        then config_error "Config error: References list can not be empty"
        else (refs <- getattr config "references" ;;
              l <- iter refs ;;
              check_references l))
  else Ret tt.

(** [validate_config]: the seven statements of the function body in order;
    the first one that raises ends the call. *)
Definition validate_config (config : value) : result unit :=
  _ <- check_mergin config ;;
  _ <- check_driver config ;;
  _ <- check_operation_mode config ;;
  _ <- check_local config ;;
  _ <- check_minio config ;;
  _ <- check_allowed_extensions config ;;
  check_references_on config.

End Config.

(* ===================================================================== *)
(** ** media_sync_daemon.py *)
(* ===================================================================== *)

Module Daemon.
Import Py.

(** *** Observable behaviour *)

(** Severity of a line written through the ["media-sync"] logger. *)
Inductive level := INFO | WARNING | ERROR.

(** A point in time in microseconds since the epoch, the resolution of
    Python's [datetime]; [Aware] carries a time zone, [Naive] does not. *)
Inductive datetime :=
| Aware (us : Z)
| Naive (us : Z).

(** What the daemon reads of a Mergin client: [mc._auth_session], which is
    [None] before a login and otherwise a dictionary that may hold the key
    ["expire"]. *)
Record auth_session := AuthSession {
  token : string;
  expire : option datetime
}.

Record client := MerginClient {
  client_id : nat;
  _auth_session : option auth_session
}.

Inductive driver := LocalDriver | MinioDriver.

(** What a run of the daemon does, in program order: the lines it logs
    and the calls it makes to code outside [media_sync_daemon.py].
    [CreateMerginClient] is a login; [CheckExpire mc] marks the evaluation
    of [mc._auth_session["expire"] - now] at the head of the token check. *)
Inductive event :=
| Log (lv : level) (msg : string)
| ParseArgs
| UpdateConfigPath (path : string)
| AsInt (key : string)
| CreateDriver
| CreateMerginClient
| PathExists (path : value)
| McDownload (mc : client)
| MediaSyncPush (mc : client) (d : driver) (files : list string)
| McPull (mc : client)
| GcCollect
| CheckExpire (mc : client)
| Sleep (secs : Z)
| SysExit (code : Z).

(** How a computation ends: with a value, with an exception travelling
    upwards, or with [sys.exit(code)]. *)
Inductive outcome (A : Type) :=
| Done (a : A)
| Failed (e : exn)
| Exited (code : Z).
Arguments Done {A} a.
Arguments Failed {A} e.
Arguments Exited {A} code.

(** A computation of the daemon: the events it produced and how it ended. *)
Definition M (A : Type) : Type := (list event * outcome A)%type.

Definition ret {A} (a : A) : M A := ([], Done a).

Definition bind {A B} (m : M A) (k : A -> M B) : M B :=
  match m with
  | (tr, Done a) => let (tr', o) := k a in ((tr ++ tr')%list, o)
  | (tr, Failed e) => (tr, Failed e)
  | (tr, Exited c) => (tr, Exited c)
  end.

Notation "x <- m ;; k" := (bind m (fun x => k))
  (at level 61, m at next level, right associativity).
Notation "m1 ;; m2" := (bind m1 (fun _ => m2))
  (at level 61, right associativity).

Definition trace {A} (m : M A) : list event := fst m.
Definition ending {A} (m : M A) : outcome A := snd m.

(** An evaluation inside the process (attribute read, arithmetic). *)
Definition lift {A} (r : result A) : M A :=
  match r with
  | Ret a => ([], Done a)
  | Raise e => ([], Failed e)
  end.

(** A call that leaves the process: the event, then the answer. *)
Definition call {A} (ev : event) (r : result A) : M A :=
  match r with
  | Ret a => ([ev], Done a)
  | Raise e => ([ev], Failed e)
  end.

Definition log (lv : level) (msg : string) : M unit := ([Log lv msg], Done tt).

Definition sys_exit {A} (code : Z) : M A := ([SysExit code], Exited code).

(** [try: body  except classes as e: handler].  [sys.exit] raises
    [SystemExit], which is not an [Exception] and which no clause of this
    program names, so it passes through. *)
Definition try_except {A} (body : M A) (catches : exn -> bool)
    (handler : exn -> M A) : M A :=
  match body with
  | (tr, Failed e) =>
      if catches e then let (tr', o) := handler e in ((tr ++ tr')%list, o)
      else (tr, Failed e)
  | other => other
  end.

(** [except (C1, ..., Cn)] *)
Definition instance_of (classes : list exn_class) (e : exn) : bool :=
  existsb (exn_class_eqb (exn_cls e)) classes.

(** [except Exception]: every class of [exn_class] derives from it. *)
Definition any_exception (e : exn) : bool := true.

(** The exit status the operating system sees: an exception nobody handles
    ends the interpreter with status 1. *)
Definition exit_status {A} (o : outcome A) : option Z :=
  match o with
  | Done _ => None
  | Failed _ => Some 1
  | Exited c => Some c
  end.

(** [str(n)] for an integer. *)
Definition str_of_int (n : Z) : string := NilZero.string_of_int (Z.to_int n).

(** *** The outside world *)

(** What [parser.parse_args()] does: it hands back the configuration file
    name or leaves through [sys.exit] (status 0 after [--help], 2 after a
    usage error). *)
Inductive parsed :=
| Args (config_file : string)
| ArgExit (code : Z).

(** The answers of everything [main] calls and does not define.  Calls
    made once at startup have one answer; calls made in the loop are
    answered per iteration (iterations are numbered from 1, and the login
    of startup is number 0). *)
Record world := World {
  w_version : string;
  w_parse_args : parsed;
  (* [update_config_path(path)], imported from [config] and defined outside
     the two files at hand: the settings then held by [config] *)
  w_update_config_path : string -> result value;
  (* [config.as_int(key)] *)
  w_as_int : value -> string -> result Z;
  w_create_driver : value -> result driver;
  w_create_mergin_client : nat -> result client;
  w_path_exists : value -> result bool;
  w_mc_download : client -> result (list string);
  w_media_sync_push : nat -> client -> driver -> list string -> result unit;
  w_mc_pull : nat -> client -> result (list string);
  (* [datetime.datetime.utcnow().isoformat()] *)
  w_utcnow : nat -> string;
  (* [datetime.datetime.now(datetime.timezone.utc)], in microseconds *)
  w_now : nat -> Z;
  w_sleep : nat -> Z -> result unit
}.

Section Program.
Variable w : world.

Definition parse_args : M string :=
  match w_parse_args w with
  | Args f => ([ParseArgs], Done f)
  | ArgExit c => ([ParseArgs; SysExit c], Exited c)
  end.

Definition update_config_path (path : string) : M value :=
  call (UpdateConfigPath path) (w_update_config_path w path).

Definition validate_config (config : value) : M unit :=
  lift (Config.validate_config config).

Definition as_int (config : value) (key : string) : M Z :=
  call (AsInt key) (w_as_int w config key).

Definition create_driver (config : value) : M driver :=
  call CreateDriver (w_create_driver w config).

Definition create_mergin_client (k : nat) : M client :=
  call CreateMerginClient (w_create_mergin_client w k).

Definition path_exists (p : value) : M bool :=
  call (PathExists p) (w_path_exists w p).

Definition mc_download (mc : client) : M (list string) :=
  call (McDownload mc) (w_mc_download w mc).

Definition media_sync_push (k : nat) (mc : client) (d : driver)
    (files : list string) : M unit :=
  call (MediaSyncPush mc d files) (w_media_sync_push w k mc d files).

Definition mc_pull (k : nat) (mc : client) : M (list string) :=
  call (McPull mc) (w_mc_pull w k mc).

Definition gc_collect : M unit := ([GcCollect], Done tt).

Definition time_sleep (k : nat) (secs : Z) : M unit :=
  call (Sleep secs) (w_sleep w k secs).

(** *** run_sync_cycle *)

Definition run_sync_cycle (k : nat) (mc : client) (d : driver) : M unit :=
  try_except
    (log INFO "Pulling changes from Mergin..." ;;
     files_to_sync <- mc_pull k mc ;;
     media_sync_push k mc d files_to_sync ;;
     log INFO "Sync complete." ;;
     gc_collect)
    (instance_of [MediaSyncError])
    (fun e => log ERROR ("Media sync error: " ++ exn_msg e)).

(** *** The token check of the loop (lines 94-101) *)

(** [mc._auth_session["expire"]] *)
Definition read_expire (mc : client) : result datetime :=
  match _auth_session mc with
  | None => Raise (Exn TypeError "'NoneType' object is not subscriptable")
  | Some s =>
      match expire s with
      | None => Raise (Exn KeyError "'expire'")
      | Some t => Ret t
      end
  end.

(** [a - b] on datetimes, as a [timedelta] in microseconds. *)
Definition datetime_sub (a b : datetime) : result Z :=
  match a, b with
  | Aware x, Aware y => Ret (x - y)
  | Naive x, Naive y => Ret (x - y)
  | _, _ =>
      Raise (Exn TypeError "can't subtract offset-naive and offset-aware datetimes")
  end.

Definition microseconds_per_second : Z := 1000000.

(** [delta.total_seconds() < secs]: [total_seconds()] is the microsecond
    count of the [timedelta] divided by 10^6, correctly rounded, and a whole
    number of seconds such as 3600 is far from the next multiple of 10^-6
    in units of rounding; so the comparison of the quotient with [secs] is
    the comparison of the microsecond counts. *)
Definition total_seconds_lt (delta secs : Z) : bool :=
  delta <? secs * microseconds_per_second.

Definition check_token_expiry (k : nat) (mc : client) : M client :=
  try_except
    (([CheckExpire mc], Done tt) ;;
     e <- lift (read_expire mc) ;;
     delta <- lift (datetime_sub e (Aware (w_now w k))) ;;
     if total_seconds_lt delta 3600
     then (log INFO "Refreshing Mergin auth token..." ;;
           create_mergin_client k)
     else ret mc)
    any_exception
    (fun e =>
       log WARNING ("Error checking token expiration: " ++ exn_msg e) ;;
       ret mc).

(** *** main *)

(** One pass through the body of [while True]. *)
Definition loop_body (sleep_time : Z) (d : driver) (k : nat) (mc : client)
  : M client :=
  log INFO ("Heartbeat: " ++ w_utcnow w k ++ " UTC") ;;
  run_sync_cycle k mc d ;;
  mc' <- check_token_expiry k mc ;;
  log INFO ("Sleeping for " ++ str_of_int sleep_time ++ " seconds...") ;;
  time_sleep k sleep_time ;;
  ret mc'.

(** [while True: ...], cut after [fuel] passes: [Done (k, mc)] says that the
    loop is about to begin pass [k] with client [mc]. *)
Fixpoint sync_loop (sleep_time : Z) (d : driver) (fuel : nat) (k : nat)
    (mc : client) : M (nat * client) :=
  match fuel with
  | O => ret (k, mc)
  | S fuel' =>
      mc' <- loop_body sleep_time d k mc ;;
      sync_loop sleep_time d fuel' (S k) mc'
  end.

(** Lines 63-68. *)
Definition load_config (config_file : string) : M value :=
  try_except
    (config <- update_config_path config_file ;;
     validate_config config ;;
     ret config)
    (instance_of [OSError; ConfigError])
    (fun e => log ERROR ("Configuration error: " ++ exn_msg e) ;; sys_exit 1).

(** Lines 72-76. *)
Definition make_driver (config : value) : M driver :=
  try_except
    (create_driver config)
    (instance_of [DriverError])
    (fun e => log ERROR ("Driver error: " ++ exn_msg e) ;; sys_exit 1).

(** Lines 78-87. *)
Definition initial_sync (config : value) (d : driver) : M client :=
  log INFO "Logging in to Mergin..." ;;
  try_except
    (mc <- create_mergin_client 0 ;;
     wd <- lift (getattr config "project_working_dir") ;;
     present <- path_exists wd ;;
     (if negb present
      then (log INFO "Project directory not found. Downloading from Mergin..." ;;
            files_to_sync <- mc_download mc ;;
            media_sync_push 0 mc d files_to_sync)
      else ret tt) ;;
     ret mc)
    (instance_of [MediaSyncError])
    (fun e => log ERROR ("Initial sync error: " ++ exn_msg e) ;; sys_exit 1).

(** Everything [main] does before [while True] (lines 59-89). *)
Definition startup : M (Z * driver * client) :=
  config_file <- parse_args ;;
  log INFO ("== Starting Mergin Media Sync daemon v" ++ w_version w ++ " ==") ;;
  config <- load_config config_file ;;
  sleep_time <- as_int config "daemon.sleep_time" ;;
  d <- make_driver config ;;
  mc <- initial_sync config d ;;
  log INFO "Entering sync loop..." ;;
  ret (sleep_time, d, mc).

Definition main (fuel : nat) : M (nat * client) :=
  s <- startup ;;
  let '(sleep_time, d, mc) := s in
  sync_loop sleep_time d fuel 1 mc.

End Program.

End Daemon.

(* ===================================================================== *)
(** ** Sample configurations and worlds *)
(* ===================================================================== *)

Module Samples.
Import Py Daemon.

Definition mergin_section : value :=
  VBox [("username", VStr "john"); ("password", VStr "secret");
        ("project_name", VStr "john/survey")].

(** A configuration as the sample [config.yaml] gives it: local driver,
    copy mode, two extensions, references switched off. *)
Definition local_config : value :=
  VBox [("mergin", mergin_section);
        ("project_working_dir", VStr "/tmp/mediasync");
        ("driver", VStr "local");
        ("operation_mode", VStr "copy");
        ("local", VBox [("dest", VStr "/srv/media")]);
        ("allowed_extensions", VList [VStr "jpg"; VStr "png"]);
        ("references_on", VBool false)].

Definition photo_reference : value :=
  VBox [("file", VStr "survey.gpkg"); ("table", VStr "photos");
        ("local_path_column", VStr "path");
        ("driver_path_column", VStr "dest")].

Definition minio_section : value :=
  VBox [("endpoint", VStr "localhost:9000"); ("access_key", VStr "AK");
        ("secret_key", VStr "SK"); ("bucket", VStr "media")].

Definition minio_config : value :=
  VBox [("mergin", mergin_section);
        ("project_working_dir", VStr "/tmp/mediasync");
        ("driver", VStr "minio");
        ("operation_mode", VStr "move");
        ("minio", minio_section);
        ("allowed_extensions", VList [VStr "jpg"]);
        ("references_on", VBool true);
        ("references", VList [photo_reference])].

(** [local_config] with the key [allowed_extensions] left out. *)
Definition config_without_extensions : value :=
  VBox [("mergin", mergin_section);
        ("project_working_dir", VStr "/tmp/mediasync");
        ("driver", VStr "local");
        ("operation_mode", VStr "copy");
        ("local", VBox [("dest", VStr "/srv/media")]);
        ("references_on", VBool false)].


Definition hour : Z := 3600 * 1000000.
Definition minute : Z := 60 * 1000000.

(** A client whose token expires at [t]. *)
Definition client_expiring (id : nat) (t : Z) : client :=
  MerginClient id (Some (AuthSession "Bearer abc" (Some (Aware t)))).

(** A world in which every call succeeds: the working directory exists, a
    pull reports one photo, the clock advances by ten seconds per pass and
    every login yields a token valid for ten hours from time 0. *)
Definition calm : world :=
  {| w_version := "1.0.0";
     w_parse_args := Args "config.yaml";
     w_update_config_path := fun _ => Ret local_config;
     w_as_int := fun _ _ => Ret 10;
     w_create_driver := fun _ => Ret LocalDriver;
     w_create_mergin_client := fun k => Ret (client_expiring k (10 * hour));
     w_path_exists := fun _ => Ret true;
     w_mc_download := fun _ => Ret ["photo1.jpg"];
     w_media_sync_push := fun _ _ _ _ => Ret tt;
     w_mc_pull := fun _ _ => Ret ["photo1.jpg"];
     w_utcnow := fun _ => "2021-06-01T12:00:00";
     w_now := fun k => Z.of_nat k * 10 * 1000000;
     w_sleep := fun _ _ => Ret tt |}.

(** [calm], except that the pull of pass 1 dies of a network failure that
    is not wrapped in a [MediaSyncError]. *)
Definition network_down : world :=
  {| w_version := "1.0.0";
     w_parse_args := Args "config.yaml";
     w_update_config_path := fun _ => Ret local_config;
     w_as_int := fun _ _ => Ret 10;
     w_create_driver := fun _ => Ret LocalDriver;
     w_create_mergin_client := fun k => Ret (client_expiring k (10 * hour));
     w_path_exists := fun _ => Ret true;
     w_mc_download := fun _ => Ret ["photo1.jpg"];
     w_media_sync_push := fun _ _ _ _ => Ret tt;
     w_mc_pull := fun _ _ => Raise (Exn OSError "Network is unreachable");
     w_utcnow := fun _ => "2021-06-01T12:00:00";
     w_now := fun k => Z.of_nat k * 10 * 1000000;
     w_sleep := fun _ _ => Ret tt |}.

(** [calm], except that every pull fails with a [MediaSyncError] and every
    login after the first is refused. *)
Definition server_down : world :=
  {| w_version := "1.0.0";
     w_parse_args := Args "config.yaml";
     w_update_config_path := fun _ => Ret local_config;
     w_as_int := fun _ _ => Ret 10;
     w_create_driver := fun _ => Ret LocalDriver;
     w_create_mergin_client := fun k =>
       match k with
       | O => Ret (client_expiring 0 (30 * minute))
       | _ => Raise (Exn MediaSyncError "Mergin client error: 503")
       end;
     w_path_exists := fun _ => Ret true;
     w_mc_download := fun _ => Ret ["photo1.jpg"];
     w_media_sync_push := fun _ _ _ _ => Ret tt;
     w_mc_pull := fun _ _ => Raise (Exn MediaSyncError "Mergin client error: 503");
     w_utcnow := fun _ => "2021-06-01T12:00:00";
     w_now := fun k => Z.of_nat k * 10 * 1000000;
     w_sleep := fun _ _ => Ret tt |}.

(** A fresh machine: no working directory yet. *)
Definition fresh_machine : world :=
  {| w_version := "1.0.0";
     w_parse_args := Args "config.yaml";
     w_update_config_path := fun _ => Ret local_config;
     w_as_int := fun _ _ => Ret 10;
     w_create_driver := fun _ => Ret LocalDriver;
     w_create_mergin_client := fun k => Ret (client_expiring k (10 * hour));
     w_path_exists := fun _ => Ret false;
     w_mc_download := fun _ => Ret ["photo1.jpg"; "photo2.jpg"];
     w_media_sync_push := fun _ _ _ _ => Ret tt;
     w_mc_pull := fun _ _ => Ret [];
     w_utcnow := fun _ => "2021-06-01T12:00:00";
     w_now := fun k => Z.of_nat k * 10 * 1000000;
     w_sleep := fun _ _ => Ret tt |}.

(** A configuration file that does not exist. *)
Definition no_config_file : world :=
  {| w_version := "1.0.0";
     w_parse_args := Args "missing.yaml";
     w_update_config_path := fun _ =>
       Raise (Exn OSError "Config file missing.yaml does not exist.");
     w_as_int := fun _ _ => Ret 10;
     w_create_driver := fun _ => Ret LocalDriver;
     w_create_mergin_client := fun k => Ret (client_expiring k (10 * hour));
     w_path_exists := fun _ => Ret true;
     w_mc_download := fun _ => Ret [];
     w_media_sync_push := fun _ _ _ _ => Ret tt;
     w_mc_pull := fun _ _ => Ret [];
     w_utcnow := fun _ => "2021-06-01T12:00:00";
     w_now := fun k => Z.of_nat k * 10 * 1000000;
     w_sleep := fun _ _ => Ret tt |}.

End Samples.

(* ===================================================================== *)
(** ** What the specification asks of a configuration *)
(* ===================================================================== *)

Module ConfigSpec.
Import Py Config.

(** [config.a.b] is there and is not empty. *)
Definition is_set (config : value) (a b : string) : bool :=
  match getattr2 config a b with
  | Ret v => truthy v
  | Raise _ => false
  end.

(** [config.name] is there and is one of [choices]. *)
Definition one_of (config : value) (name : string) (choices : list string)
  : bool :=
  match getattr config name with
  | Ret v => in_strs v choices
  | Raise _ => false
  end.

Definition driver_is (config : value) (s : string) : bool :=
  match getattr config "driver" with
  | Ret v => eq_str v s
  | Raise _ => false
  end.

(** A value with a length that is not empty. *)
Definition nonempty_collection (v : value) : bool :=
  truthy v &&
  match len v with
  | Ret n => negb (n =? 0)
  | Raise _ => false
  end.

Definition has_nonempty (config : value) (name : string) : bool :=
  match getattr config name with
  | Ret v => nonempty_collection v
  | Raise _ => false
  end.

(** Every rule carries the four attributes. *)
Definition rules_complete (v : value) : bool :=
  match iter v with
  | Ret l => forallb (fun ref => has_all_attrs ref reference_attrs) l
  | Raise _ => false
  end.

Definition references_valid (config : value) : bool :=
  match getattr config "references_on" with
  | Ret r =>
      if eq_True r
      then has_nonempty config "references" &&
           match getattr config "references" with
           | Ret v => rules_complete v
           | Raise _ => false
           end
      else true
  | Raise _ => false
  end.

Definition mergin_valid (config : value) : bool :=
  is_set config "mergin" "username" && is_set config "mergin" "password" &&
  is_set config "mergin" "project_name".

Definition local_valid (config : value) : bool :=
  implb (driver_is config "local") (is_set config "local" "dest").

Definition minio_valid (config : value) : bool :=
  implb (driver_is config "minio")
    (is_set config "minio" "endpoint" && is_set config "minio" "access_key" &&
     is_set config "minio" "secret_key" && is_set config "minio" "bucket").

(** A configuration that passes the Mergin, driver, mode, local, MinIO,
    allow-list and reference checks. *)
Definition settings_valid (config : value) : bool :=
  mergin_valid config &&
  one_of config "driver" ["local"; "minio"] &&
  one_of config "operation_mode" ["move"; "copy"] &&
  local_valid config &&
  minio_valid config &&
  has_nonempty config "allowed_extensions" &&
  references_valid config.

(** A value that is there but empty: [None], [""], [[]], [{}], [0],
    [False]. *)
Definition empty (v : value) : Prop := truthy v = false.

(** [config.name] and [config.a.b] can be read. *)
Definition present (config : value) (name : string) : Prop :=
  exists v, getattr config name = Ret v.


(** [config.name] is not there. *)
Definition absent (config : value) (name : string) : Prop :=
  hasattr config name = false.

(** [config.name] is there and empty. *)
Definition empty_at (config : value) (name : string) : Prop :=
  exists v, getattr config name = Ret v /\ empty v.

(** The statements of [validate_config] before the allow-list check all
    return. *)
Definition earlier_checks_pass (config : value) : Prop :=
  check_mergin config = Ret tt /\ check_driver config = Ret tt /\
  check_operation_mode config = Ret tt /\ check_local config = Ret tt /\
  check_minio config = Ret tt.

(** The two messages of the reference checks. *)
Definition reference_message (msg : string) : Prop :=
  msg = "Config error: References list can not be empty" \/
  msg = "Config error: Incorrect media reference settings".

(** An exception raised by a read or by [len]/[iter], as opposed to one
    raised by a [raise ConfigError(...)] statement. *)
Definition from_read (e : exn) : Prop :=
  exn_cls e = AttributeError \/ exn_cls e = TypeError.

(** A statement [if not cond: raise ConfigError(msg)] whose condition is
    evaluated in [r]: what it raises is the [ConfigError] or comes from the
    evaluation of the condition. *)
Definition raises_only (r : result unit) (msg : string) : Prop :=
  forall e, r = Raise e -> e = Exn ConfigError msg \/ from_read e.

End ConfigSpec.

(* ===================================================================== *)
(** ** What the specification asks of the daemon *)
(* ===================================================================== *)

Module DaemonSpec.
Import Py Daemon.

(** How many events of a trace satisfy [p]. *)
Definition count (p : event -> bool) (tr : list event) : nat :=
  List.length (List.filter p tr).

(** [s] begins with [p]. *)
Fixpoint starts_with (p s : string) : bool :=
  match p with
  | EmptyString => true
  | String a p' =>
      match s with
      | EmptyString => false
      | String b s' => Ascii.eqb a b && starts_with p' s'
      end
  end.

(** The heartbeat line of a pass. *)
Definition is_heartbeat (ev : event) : bool :=
  match ev with
  | Log INFO msg => starts_with "Heartbeat: " msg
  | _ => false
  end.

(** The summary line of a cycle: the success message or the error. *)
Definition is_summary (ev : event) : bool :=
  match ev with
  | Log INFO msg => String.eqb msg "Sync complete."
  | Log ERROR msg => starts_with "Media sync error: " msg
  | _ => false
  end.

Definition is_error_line (ev : event) : bool :=
  match ev with Log ERROR _ => true | _ => false end.

Definition is_warning_line (ev : event) : bool :=
  match ev with Log WARNING _ => true | _ => false end.

Definition is_login (ev : event) : bool :=
  match ev with CreateMerginClient => true | _ => false end.

Definition is_expiry_check (ev : event) : bool :=
  match ev with CheckExpire _ => true | _ => false end.

Definition is_download (ev : event) : bool :=
  match ev with McDownload _ => true | _ => false end.

Definition is_pull (ev : event) : bool :=
  match ev with McPull _ => true | _ => false end.

(** An event that only a pass of the loop produces. *)
Definition is_loop_event (ev : event) : bool :=
  is_heartbeat ev || is_pull ev || is_expiry_check ev ||
  match ev with Sleep _ | GcCollect => true | _ => false end.

(** The line the token check writes when it fails. *)
Definition warning_of (e : exn) : event :=
  Log WARNING ("Error checking token expiration: " ++ exn_msg e).

(** The events a cycle can produce. *)
Definition is_cycle_event (ev : event) : bool :=
  match ev with
  | Log INFO _ | Log ERROR _ | McPull _ | MediaSyncPush _ _ _ | GcCollect => true
  | _ => false
  end.

Section World.
Variable w : world.

(** The exception that leaves [mc_pull] or [media_sync_push] in the cycle
    of pass [k], if there is one. *)
Definition cycle_error (k : nat) (mc : client) (d : driver) : option exn :=
  match w_mc_pull w k mc with
  | Raise e => Some e
  | Ret files =>
      match w_media_sync_push w k mc d files with
      | Raise e => Some e
      | Ret _ => None
      end
  end.

(** The calls a cycle makes. *)
Definition cycle_calls (k : nat) (mc : client) (d : driver) : list event :=
  match w_mc_pull w k mc with
  | Raise _ => [McPull mc]
  | Ret files => [McPull mc; MediaSyncPush mc d files]
  end.

(** Every error of the cycle of pass [k] is a [MediaSyncError]. *)
Definition cycle_contained (k : nat) (mc : client) (d : driver) : Prop :=
  forall e, cycle_error k mc d = Some e -> exn_cls e = MediaSyncError.

(** [mc._auth_session["expire"] - now] at pass [k]. *)
Definition expiry_delta (k : nat) (mc : client) : result Z :=
  Py.bind (read_expire mc) (fun e => datetime_sub e (Aware (w_now w k))).

Definition one_hour : Z := 3600 * 1000000.

(** The expiry timestamp minus the current time is less than one hour. *)
Definition refresh_due (k : nat) (mc : client) : Prop :=
  exists delta, expiry_delta k mc = Ret delta /\ delta < one_hour.

(** The session of the client holds an expiry timestamp (with time zone,
    as the clock of the daemon has one) that lies less than 3600 seconds
    after the clock reading of pass [k]. *)
Definition expires_within_the_hour (k : nat) (mc : client) : Prop :=
  exists s t,
    _auth_session mc = Some s /\ expire s = Some (Aware t) /\
    t - w_now w k < 3600 * 1000000.


(** The client the loop holds after the token check of pass [k]. *)
Definition client_after_check (k : nat) (mc : client) : client :=
  match expiry_delta k mc with
  | Raise _ => mc
  | Ret delta =>
      if delta <? one_hour
      then match w_create_mergin_client w k with
           | Raise _ => mc
           | Ret mc' => mc'
           end
      else mc
  end.

(** Startup got as far as a loaded and validated configuration. *)
Definition config_loaded (path : string) (config : value) : Prop :=
  w_parse_args w = Args path /\
  w_update_config_path w path = Ret config /\
  Config.validate_config config = Ret tt.

(** Startup got as far as a constructed driver. *)
Definition driver_made (path : string) (config : value) (sleep_time : Z)
    (d : driver) : Prop :=
  config_loaded path config /\
  w_as_int w config "daemon.sleep_time" = Ret sleep_time /\
  w_create_driver w config = Ret d.

(** A startup step is reached and fails with an exception of the class its
    [except] clause names; the string is what the clause logs before the
    message of the exception. *)
Inductive fatal_startup : exn -> string -> Prop :=
| config_unreadable path e :
    w_parse_args w = Args path ->
    w_update_config_path w path = Raise e ->
    instance_of [OSError; ConfigError] e = true ->
    fatal_startup e "Configuration error: "
| config_invalid path config e :
    w_parse_args w = Args path ->
    w_update_config_path w path = Ret config ->
    Config.validate_config config = Raise e ->
    instance_of [OSError; ConfigError] e = true ->
    fatal_startup e "Configuration error: "
| driver_failed path config sleep_time e :
    config_loaded path config ->
    w_as_int w config "daemon.sleep_time" = Ret sleep_time ->
    w_create_driver w config = Raise e ->
    instance_of [DriverError] e = true ->
    fatal_startup e "Driver error: "
| login_failed path config sleep_time d e :
    driver_made path config sleep_time d ->
    w_create_mergin_client w 0 = Raise e ->
    instance_of [MediaSyncError] e = true ->
    fatal_startup e "Initial sync error: "
| download_failed path config sleep_time d mc wd e :
    driver_made path config sleep_time d ->
    w_create_mergin_client w 0 = Ret mc ->
    getattr config "project_working_dir" = Ret wd ->
    w_path_exists w wd = Ret false ->
    w_mc_download w mc = Raise e ->
    instance_of [MediaSyncError] e = true ->
    fatal_startup e "Initial sync error: "
| push_failed path config sleep_time d mc wd files e :
    driver_made path config sleep_time d ->
    w_create_mergin_client w 0 = Ret mc ->
    getattr config "project_working_dir" = Ret wd ->
    w_path_exists w wd = Ret false ->
    w_mc_download w mc = Ret files ->
    w_media_sync_push w 0 mc d files = Raise e ->
    instance_of [MediaSyncError] e = true ->
    fatal_startup e "Initial sync error: ".

(** The events of a pass of the loop in which no exception escapes the
    cycle, given the events of its cycle and of its token check. *)
Definition pass_events (sleep_time : Z) (k : nat) (cycle check : list event)
  : list event :=
  ([Log INFO ("Heartbeat: " ++ w_utcnow w k ++ " UTC")] ++ cycle ++ check ++
   [Log INFO ("Sleeping for " ++ str_of_int sleep_time ++ " seconds...");
    Sleep sleep_time])%list.

End World.

End DaemonSpec.

(* ===================================================================== *)
(** ** Further vocabulary for the two files *)
(* ===================================================================== *)

Module MoreSpec.
Import Py Config ConfigSpec Daemon DaemonSpec.

(** The messages of the [raise ConfigError(...)] statements of
    [validate_config], in the order of the statements. *)
Definition config_messages : list string :=
  ["Config error: Incorrect mergin settings";
   "Config error: Unsupported driver";
   "Config error: Unsupported operation mode";
   "Config error: Incorrect Local driver settings";
   "Config error: Incorrect MinIO driver settings";
   "Config error: Allowed extensions can not be empty";
   "Config error: References list can not be empty";
   "Config error: Incorrect media reference settings"].

(** The first six statements of [validate_config] return. *)
Definition checks_before_references_pass (config : value) : Prop :=
  earlier_checks_pass config /\ check_allowed_extensions config = Ret tt.

(** A value [len] does not accept. *)
Definition unsized (v : value) : Prop :=
  forall n, len v <> Ret n.

(** A client whose expiry cannot be compared with the clock of the daemon:
    no session, no ["expire"] entry, or an expiry without time zone. *)
Definition unrefreshable (mc : client) : Prop :=
  (exists e, read_expire mc = Raise e) \/ (exists t, read_expire mc = Ret (Naive t)).

(** A read of a setting through [config.as_int]. *)
Definition is_as_int (ev : event) : bool :=
  match ev with AsInt _ => true | _ => false end.

(** The calls of [mc_pull] in a trace, in order. *)
Definition pulls (tr : list event) : list event := filter is_pull tr.

(** No exception leaves the cycle and the sleep returns in passes [k] to
    [k + n - 1], whatever client the loop holds. *)
Definition undisturbed (w : world) (sleep_time : Z) (d : driver) (k n : nat)
  : Prop :=
  forall j mc, (k <= j < k + n)%nat ->
    cycle_contained w j mc d /\ exists u, w_sleep w j sleep_time = Ret u.

(** The calm world with the key [allowed_extensions] missing from the
    configuration file. *)
Definition no_extensions_key : world :=
  {| w_version := "1.0.0";
     w_parse_args := Args "config.yaml";
     w_update_config_path := fun _ => Ret Samples.config_without_extensions;
     w_as_int := fun _ _ => Ret 10;
     w_create_driver := fun _ => Ret LocalDriver;
     w_create_mergin_client :=
       fun k => Ret (Samples.client_expiring k (10 * Samples.hour));
     w_path_exists := fun _ => Ret true;
     w_mc_download := fun _ => Ret [];
     w_media_sync_push := fun _ _ _ _ => Ret tt;
     w_mc_pull := fun _ _ => Ret [];
     w_utcnow := fun _ => "2021-06-01T12:00:00";
     w_now := fun k => Z.of_nat k * 10 * 1000000;
     w_sleep := fun _ _ => Ret tt |}.

(** The calm world with a polling interval that is not a number. *)
Definition bad_interval : world :=
  {| w_version := "1.0.0";
     w_parse_args := Args "config.yaml";
     w_update_config_path := fun _ => Ret Samples.local_config;
     w_as_int := fun _ _ =>
       Raise (Exn ValueError "invalid literal for int() with base 10: 'soon'");
     w_create_driver := fun _ => Ret LocalDriver;
     w_create_mergin_client :=
       fun k => Ret (Samples.client_expiring k (10 * Samples.hour));
     w_path_exists := fun _ => Ret true;
     w_mc_download := fun _ => Ret [];
     w_media_sync_push := fun _ _ _ _ => Ret tt;
     w_mc_pull := fun _ _ => Ret [];
     w_utcnow := fun _ => "2021-06-01T12:00:00";
     w_now := fun k => Z.of_nat k * 10 * 1000000;
     w_sleep := fun _ _ => Ret tt |}.

(** Whether an exception that is not a [MediaSyncError] leaves the cycle
    of pass [k]. *)
Definition cycle_escapes_dec (w : world) (k : nat) (mc : client) (d : driver)
  : bool :=
  match cycle_error w k mc d with
  | Some e => negb (exn_class_eqb (exn_cls e) MediaSyncError)
  | None => false
  end.

End MoreSpec.

(* ===================================================================== *)
(** ** setup_logger *)
(* ===================================================================== *)

Module Logging.

(** The levels of Python's [logging] with their numbers and names. *)
Inductive severity := Debug | Info | Warning | Error | Critical.

Definition levelno (sv : severity) : Z :=
  match sv with
  | Debug => 10 | Info => 20 | Warning => 30 | Error => 40 | Critical => 50
  end.

Definition levelname (sv : severity) : string :=
  match sv with
  | Debug => "DEBUG" | Info => "INFO" | Warning => "WARNING"
  | Error => "ERROR" | Critical => "CRITICAL"
  end.

(** The severities the daemon logs with. *)
Definition of_level (lv : Daemon.level) : severity :=
  match lv with
  | Daemon.INFO => Info
  | Daemon.WARNING => Warning
  | Daemon.ERROR => Error
  end.

(** A [StreamHandler] with the stream it writes to, its own level (0 is
    [NOTSET], the level of a new handler) and the format string of its
    [Formatter]. *)
Record handler := Handler {
  h_stream : string;
  h_level : Z;
  h_format : string
}.

(** A logger: its level (0 is [NOTSET]) and its handlers in the order they
    were added. *)
Record logger := Logger { l_level : Z; l_handlers : list handler }.

(** The state of the [logging] module: the root logger and the loggers
    that [getLogger] has created so far, by name. *)
Record registry := Registry {
  root : logger;
  named : list (string * logger)
}.

Fixpoint find (name : string) (ls : list (string * logger)) : option logger :=
  match ls with
  | [] => None
  | (n, l) :: ls' => if String.eqb name n then Some l else find name ls'
  end.

Fixpoint store (name : string) (l : logger) (ls : list (string * logger))
  : list (string * logger) :=
  match ls with
  | [] => [(name, l)]
  | (n, l') :: ls' =>
      if String.eqb name n then (name, l) :: ls' else (n, l') :: store name l ls'
  end.

(** [logging.getLogger(name)]: the logger of that name, a new one (level
    [NOTSET], no handlers) at the first request. *)
Definition getLogger (name : string) (reg : registry) : logger :=
  match find name (named reg) with
  | Some l => l
  | None => Logger 0 []
  end.

(** [setup_logger()]: the logger ["media-sync"] is set to level INFO and
    gets one more handler, a new [StreamHandler(sys.stdout)] with the
    format of line 25.  ([addHandler] skips a handler only if that very
    object is already attached, and the handler is new at every call.) *)
Definition setup_logger (reg : registry) : registry :=
  let logger := getLogger "media-sync" reg in
  let handler :=
    Handler "stdout" 0 "%(asctime)s - %(levelname)s - %(message)s" in
  Registry (root reg)
    (store "media-sync"
       (Logger (levelno Info) (l_handlers logger ++ [handler])%list)
       (named reg)).

(** The scanner of a [%]-format string with [%(key)s] fields. *)
Inductive scan :=
| Text
| Percent
| Key (acc : string)
| Conv (key : string).

Fixpoint lookup_field (key : string) (fields : list (string * string))
  : option string :=
  match fields with
  | [] => None
  | (k, v) :: fields' => if String.eqb key k then Some v else lookup_field key fields'
  end.

Definition emit_char (c : ascii) (rest : option string) : option string :=
  match rest with
  | Some r => Some (String c r)
  | None => None
  end.

Definition emit_string (v : string) (rest : option string) : option string :=
  match rest with
  | Some r => Some (v ++ r)
  | None => None
  end.

(** [template % fields] for the conversions [%(key)s] and [%%]; [None]
    where Python raises (unknown key, other conversion, truncated
    field). *)
Fixpoint interpolate (template : string) (st : scan)
    (fields : list (string * string)) : option string :=
  match template with
  | EmptyString =>
      match st with
      | Text => Some EmptyString
      | _ => None
      end
  | String c template' =>
      match st with
      | Text =>
          if Ascii.eqb c "%"
          then interpolate template' Percent fields
          else emit_char c (interpolate template' Text fields)
      | Percent =>
          if Ascii.eqb c "("
          then interpolate template' (Key EmptyString) fields
          else if Ascii.eqb c "%"
               then emit_char c (interpolate template' Text fields)
               else None
      | Key acc =>
          if Ascii.eqb c ")"
          then interpolate template' (Conv acc) fields
          else interpolate template' (Key (acc ++ String c EmptyString)) fields
      | Conv key =>
          if Ascii.eqb c "s"
          then match lookup_field key fields with
               | Some v => emit_string v (interpolate template' Text fields)
               | None => None
               end
          else None
      end
  end.

(** A log record as a [Formatter] sees it. *)
Definition record_fields (asctime : string) (sv : severity) (msg : string)
  : list (string * string) :=
  [("asctime", asctime); ("levelname", levelname sv); ("message", msg)].

(** What one handler writes for a record: the stream and the line. *)
Definition emit (asctime : string) (sv : severity) (msg : string)
    (h : handler) : string * option string :=
  (h_stream h, interpolate (h_format h) Text (record_fields asctime sv msg)).

(** [getEffectiveLevel()] of a logger directly below the root: its own
    level if set, else the level of the root. *)
Definition effective_level (reg : registry) (l : logger) : Z :=
  if l_level l =? 0 then l_level (root reg) else l_level l.

(** [logging.getLogger(name).log(sv, msg)] at time [asctime], for a name
    without dots: a record below the effective level of the logger is
    dropped; otherwise it goes to the handlers of the logger and, the
    logger propagating, to those of the root logger, each handler taking
    the records at or above its own level; if there is no handler at all,
    the handler of last resort writes the bare message of a record from
    WARNING upwards to [stderr]. *)
Definition log_record (reg : registry) (name : string) (asctime : string)
    (sv : severity) (msg : string) : list (string * option string) :=
  let logger := getLogger name reg in
  if levelno sv <? effective_level reg logger then []
  else
    match (l_handlers logger ++ l_handlers (root reg))%list with
    | [] => if levelno sv <? levelno Warning then [] else [("stderr", Some msg)]
    | hs =>
        map (emit asctime sv msg)
            (filter (fun h => h_level h <=? levelno sv) hs)
    end.

(** [setup_logger()] called [n] times. *)
Fixpoint setup_logger_times (n : nat) (reg : registry) : registry :=
  match n with
  | O => reg
  | S n' => setup_logger (setup_logger_times n' reg)
  end.

(** The [logging] module as the interpreter starts it: a root logger at
    WARNING without handlers and no other logger. *)
Definition fresh : registry := Registry (Logger (levelno Warning) []) [].

End Logging.

(* ===================================================================== *)
(** ** Properties of validate_config *)
(* ===================================================================== *)

Module ConfigProps.
Import Py PyNotations Config ConfigSpec.

Lemma bind_unit_Ret (m : result unit) (k : unit -> result unit) :
  bind m k = Ret tt <-> m = Ret tt /\ k tt = Ret tt.
Proof.
  destruct m as [[]|e]; simpl; split.
  - intro H; split; [reflexivity | exact H].
  - intros [_ H]; exact H.
  - discriminate.
  - intros [H _]; discriminate H.
Qed.

Lemma check_mergin_ok config :
  check_mergin config = Ret tt <-> mergin_valid config = true.
Proof.
  unfold check_mergin, mergin_valid, is_set, and_then, config_error, bind.
  destruct (getattr2 config "mergin" "username") as [u|]; simpl;
    [destruct (truthy u) eqn:Hu; simpl|].
  - destruct (getattr2 config "mergin" "password") as [p|]; simpl;
      [destruct (truthy p) eqn:Hp; simpl|].
    + destruct (getattr2 config "mergin" "project_name") as [n|]; simpl;
        [destruct (truthy n) eqn:Hn; simpl|]; split; congruence.
    + rewrite Hp; simpl. split; congruence.
    + split; congruence.
  - rewrite Hu; simpl. split; congruence.
  - split; congruence.
Qed.

Lemma check_driver_ok config :
  check_driver config = Ret tt <-> one_of config "driver" ["local"; "minio"] = true.
Proof.
  unfold check_driver, one_of, config_error, bind.
  destruct (getattr config "driver") as [d|]; [|split; congruence].
  destruct (in_strs d ["local"; "minio"]); simpl; split; congruence.
Qed.

Lemma check_operation_mode_ok config :
  check_operation_mode config = Ret tt <->
  one_of config "operation_mode" ["move"; "copy"] = true.
Proof.
  unfold check_operation_mode, one_of, config_error, bind.
  destruct (getattr config "operation_mode") as [d|]; [|split; congruence].
  destruct (in_strs d ["move"; "copy"]); simpl; split; congruence.
Qed.

(** Stated for a configuration whose [driver] can be read, which the driver
    check before it guarantees. *)
Lemma check_local_ok config d :
  getattr config "driver" = Ret d ->
  (check_local config = Ret tt <-> local_valid config = true).
Proof.
  intro Hd.
  unfold check_local, local_valid, driver_is, is_set, config_error, bind.
  rewrite Hd.
  destruct (eq_str d "local"); simpl; [|split; congruence].
  destruct (getattr2 config "local" "dest") as [x|]; [|split; congruence].
  destruct (truthy x); simpl; split; congruence.
Qed.

Lemma check_minio_ok config d :
  getattr config "driver" = Ret d ->
  (check_minio config = Ret tt <-> minio_valid config = true).
Proof.
  intro Hd.
  unfold check_minio, minio_valid, driver_is, is_set, and_then, config_error, bind.
  rewrite Hd.
  destruct (eq_str d "minio"); simpl; [|split; congruence].
  destruct (getattr2 config "minio" "endpoint") as [a|]; simpl;
    [destruct (truthy a) eqn:Ha; simpl|split; congruence];
    [|rewrite Ha; simpl; split; congruence].
  destruct (getattr2 config "minio" "access_key") as [b|]; simpl;
    [destruct (truthy b) eqn:Hb; simpl|split; congruence];
    [|rewrite Hb; simpl; split; congruence].
  destruct (getattr2 config "minio" "secret_key") as [c|]; simpl;
    [destruct (truthy c) eqn:Hc; simpl|split; congruence];
    [|rewrite Hc; simpl; split; congruence].
  destruct (getattr2 config "minio" "bucket") as [e|]; simpl;
    [destruct (truthy e) eqn:He; simpl|]; split; congruence.
Qed.

Lemma empty_setting_false config name :
  empty_setting config name = Ret false <-> has_nonempty config name = true.
Proof.
  unfold empty_setting, has_nonempty, nonempty_collection, bind.
  destruct (getattr config name) as [x|]; [|split; congruence].
  destruct (truthy x); simpl; [|split; congruence].
  destruct (len x) as [n|]; [|split; congruence].
  destruct (n =? 0); simpl; split; congruence.
Qed.

Lemma check_allowed_extensions_ok config :
  check_allowed_extensions config = Ret tt <->
  has_nonempty config "allowed_extensions" = true.
Proof.
  rewrite <- empty_setting_false.
  unfold check_allowed_extensions, config_error, bind.
  destruct (empty_setting config "allowed_extensions") as [[]|];
    split; congruence.
Qed.

Lemma check_references_ok l :
  check_references l = Ret tt <->
  forallb (fun ref => has_all_attrs ref reference_attrs) l = true.
Proof.
  induction l as [|ref l IH]; cbn [check_references forallb].
  - split; reflexivity.
  - destruct (has_all_attrs ref reference_attrs); cbn [negb andb].
    + exact IH.
    + unfold config_error. split; congruence.
Qed.

Lemma check_references_on_ok config :
  check_references_on config = Ret tt <-> references_valid config = true.
Proof.
  unfold check_references_on, references_valid.
  destruct (getattr config "references_on") as [r|] eqn:Hr; simpl;
    [|split; congruence].
  destruct (eq_True r); [|split; reflexivity].
  pose proof (empty_setting_false config "references") as He.
  destruct (empty_setting config "references") as [[]|] eqn:Hs; simpl.
  - unfold config_error. split; [congruence|].
    intro H. apply andb_true_iff in H. destruct H as [H _].
    apply He in H. discriminate H.
  - rewrite (proj1 He eq_refl). simpl. unfold rules_complete.
    destruct (getattr config "references") as [v|]; simpl; [|split; congruence].
    destruct (iter v) as [l|]; simpl; [|split; congruence].
    apply check_references_ok.
  - split; [congruence|].
    intro H. apply andb_true_iff in H. destruct H as [H _].
    apply He in H. discriminate H.
Qed.

Lemma one_of_readable config name choices :
  one_of config name choices = true -> exists d, getattr config name = Ret d.
Proof.
  unfold one_of. destruct (getattr config name) as [d|]; [|discriminate].
  intros _. exists d. reflexivity.
Qed.

(** [validate_config] returns exactly on the configurations that pass every
    check. *)
Lemma validate_config_ok config :
  validate_config config = Ret tt <-> settings_valid config = true.
Proof.
  unfold validate_config, settings_valid.
  rewrite !bind_unit_Ret, !andb_true_iff.
  rewrite check_mergin_ok, check_driver_ok, check_operation_mode_ok,
    check_allowed_extensions_ok, check_references_on_ok.
  split.
  - intros (Hm & Hd & Ho & Hl & Hn & Ha & Hr).
    destruct (one_of_readable _ _ _ Hd) as [d Hd'].
    rewrite (check_local_ok _ _ Hd') in Hl.
    rewrite (check_minio_ok _ _ Hd') in Hn.
    repeat split; assumption.
  - intros ((((((Hm & Hd) & Ho) & Hl) & Hn) & Ha) & Hr).
    destruct (one_of_readable _ _ _ Hd) as [d Hd'].
    rewrite (check_local_ok _ _ Hd'), (check_minio_ok _ _ Hd').
    repeat split; assumption.
Qed.

Lemma eq_str_true d s : eq_str d s = true -> d = VStr s.
Proof.
  destruct d; simpl; try discriminate.
  intro H. apply String.eqb_eq in H. congruence.
Qed.

Lemma getattr_raises o name e :
  getattr o name = Raise e -> e = Exn AttributeError name.
Proof.
  unfold getattr. destruct o; try congruence.
  destruct (assoc name fields); congruence.
Qed.

Lemma absent_raises config name :
  absent config name <-> getattr config name = Raise (Exn AttributeError name).
Proof.
  unfold absent, hasattr.
  destruct (getattr config name) as [v|e] eqn:H.
  - split; discriminate.
  - apply getattr_raises in H. subst e. split; reflexivity.
Qed.











(** *** Where an exception of [validate_config] comes from *)

Lemma getattr_from_read o name e : getattr o name = Raise e -> from_read e.
Proof. intro H. apply getattr_raises in H. subst e. left. reflexivity. Qed.

Lemma getattr2_from_read o a b e : getattr2 o a b = Raise e -> from_read e.
Proof.
  unfold getattr2, bind. destruct (getattr o a) as [x|e'] eqn:H.
  - apply getattr_from_read.
  - intro H'. injection H' as <-. exact (getattr_from_read _ _ _ H).
Qed.

Lemma len_from_read v e : len v = Raise e -> from_read e.
Proof.
  destruct v; simpl; intro H; try discriminate H;
    injection H as <-; right; reflexivity.
Qed.

Lemma iter_from_read v e : iter v = Raise e -> from_read e.
Proof.
  destruct v; simpl; intro H; try discriminate H;
    injection H as <-; right; reflexivity.
Qed.

Lemma and_then_from_read x y :
  (forall e, x = Raise e -> from_read e) ->
  (forall e, y = Raise e -> from_read e) ->
  forall e, and_then x y = Raise e -> from_read e.
Proof.
  intros Hx Hy e. unfold and_then, bind.
  destruct x as [a|e']; [destruct (truthy a)|].
  - apply Hy.
  - discriminate.
  - apply Hx.
Qed.

Lemma empty_setting_from_read config name e :
  empty_setting config name = Raise e -> from_read e.
Proof.
  unfold empty_setting, bind.
  destruct (getattr config name) as [x|e'] eqn:H.
  - destruct (truthy x); [|discriminate].
    destruct (len x) as [n|e''] eqn:Hl; [discriminate|].
    intro H'. injection H' as <-. exact (len_from_read _ _ Hl).
  - intro H'. injection H' as <-. exact (getattr_from_read _ _ _ H).
Qed.

Create HintDb from_read.
#[local] Hint Resolve getattr_from_read getattr2_from_read len_from_read
  iter_from_read and_then_from_read empty_setting_from_read : from_read.

Lemma check_mergin_raises config :
  raises_only (check_mergin config) "Config error: Incorrect mergin settings".
Proof.
  intros e. unfold check_mergin, config_error.
  destruct (and_then _ _) as [m|e'] eqn:H; simpl.
  - destruct (truthy m); simpl; [discriminate|].
    intro H'. injection H' as <-. left. reflexivity.
  - intro H'. injection H' as <-. right. revert H.
    eauto 6 with from_read.
Qed.

Lemma check_driver_raises config :
  raises_only (check_driver config) "Config error: Unsupported driver".
Proof.
  intros e. unfold check_driver, config_error, bind.
  destruct (getattr config "driver") as [d|e'] eqn:H.
  - destruct (in_strs d _); simpl; [discriminate|].
    intro H'. injection H' as <-. left. reflexivity.
  - intro H'. injection H' as <-. right. eauto with from_read.
Qed.

Lemma check_operation_mode_raises config :
  raises_only (check_operation_mode config)
    "Config error: Unsupported operation mode".
Proof.
  intros e. unfold check_operation_mode, config_error, bind.
  destruct (getattr config "operation_mode") as [d|e'] eqn:H.
  - destruct (in_strs d _); simpl; [discriminate|].
    intro H'. injection H' as <-. left. reflexivity.
  - intro H'. injection H' as <-. right. eauto with from_read.
Qed.

Lemma check_local_raises config :
  raises_only (check_local config)
    "Config error: Incorrect Local driver settings".
Proof.
  intros e. unfold check_local, config_error, bind.
  destruct (getattr config "driver") as [d|e'] eqn:H.
  - destruct (eq_str d "local"); [|discriminate].
    destruct (getattr2 config "local" "dest") as [x|e'] eqn:Hx.
    + destruct (truthy x); simpl; [discriminate|].
      intro H'. injection H' as <-. left. reflexivity.
    + intro H'. injection H' as <-. right. eauto with from_read.
  - intro H'. injection H' as <-. right. eauto with from_read.
Qed.

Lemma check_minio_raises config :
  raises_only (check_minio config)
    "Config error: Incorrect MinIO driver settings".
Proof.
  intros e. unfold check_minio, config_error, bind.
  destruct (getattr config "driver") as [d|e'] eqn:H.
  - destruct (eq_str d "minio"); [|discriminate].
    destruct (and_then _ _) as [x|e'] eqn:Hx.
    + destruct (truthy x); simpl; [discriminate|].
      intro H'. injection H' as <-. left. reflexivity.
    + intro H'. injection H' as <-. right. revert Hx.
      eauto 8 with from_read.
  - intro H'. injection H' as <-. right. eauto with from_read.
Qed.

Lemma check_allowed_extensions_raises config :
  raises_only (check_allowed_extensions config)
    "Config error: Allowed extensions can not be empty".
Proof.
  intros e. unfold check_allowed_extensions, config_error, bind.
  destruct (empty_setting config "allowed_extensions") as [[]|e'] eqn:H.
  - intro H'. injection H' as <-. left. reflexivity.
  - discriminate.
  - intro H'. injection H' as <-. right. eauto with from_read.
Qed.

Lemma from_read_not_config_error e msg :
  from_read e -> e <> Exn ConfigError msg.
Proof. intros [H|H] ->; discriminate H. Qed.

(** Sequencing: the exception of [m ;; k] is the one of [m] or, after [m]
    returned, the one of [k]. *)
Lemma bind_unit_Raise (m : result unit) (k : unit -> result unit) e :
  bind m k = Raise e -> m = Raise e \/ (m = Ret tt /\ k tt = Raise e).
Proof.
  destruct m as [[]|e']; simpl; intro H.
  - right. split; [reflexivity | exact H].
  - left. exact H.
Qed.

Lemma assoc_set_field_other k k' v fs :
  String.eqb k k' = false -> assoc k (set_field k' v fs) = assoc k fs.
Proof.
  intro Hk. induction fs as [|[a x] fs IH]; simpl.
  - rewrite Hk. reflexivity.
  - destruct (String.eqb k' a) eqn:Ha; simpl.
    + apply String.eqb_eq in Ha. subst a. rewrite Hk. reflexivity.
    + destruct (String.eqb k a); [reflexivity | exact IH].
Qed.

(** Writing one attribute leaves the reads of the others as they were. *)
Lemma getattr_setattr_other config k k' v :
  String.eqb k k' = false -> getattr (setattr config k' v) k = getattr config k.
Proof.
  intro Hk. destruct config; try reflexivity.
  simpl. rewrite (assoc_set_field_other _ _ _ _ Hk). reflexivity.
Qed.

Ltac other_reads :=
  unfold getattr2, empty_setting;
  repeat rewrite getattr_setattr_other by reflexivity.

(** The first six statements do not read [config.references]. *)
Lemma earlier_checks_ignore_references config v :
  let config' := setattr config "references" v in
  check_mergin config' = check_mergin config /\
  check_driver config' = check_driver config /\
  check_operation_mode config' = check_operation_mode config /\
  check_local config' = check_local config /\
  check_minio config' = check_minio config /\
  check_allowed_extensions config' = check_allowed_extensions config.
Proof.
  unfold check_mergin, check_driver, check_operation_mode, check_local,
    check_minio, check_allowed_extensions.
  cbv zeta. other_reads. repeat split; reflexivity.
Qed.

(** C10.  The reference rules are validated only when [references_on]
    compares equal to [True].  For every configuration in which
    [references_on] is absent or holds a value that does not compare equal
    to [True]: the outcome of [validate_config] is the same whatever
    [config.references] holds (any value put there, also where none was,
    changes nothing, so the list is not inspected), and no [ConfigError] it
    raises carries one of the two messages of the reference checks. *)
Theorem references_validated_only_when_on (config : value) :
  (forall r, getattr config "references_on" = Ret r -> eq_True r = false) ->
  (forall v,
      validate_config (setattr config "references" v) = validate_config config) /\
  (forall msg,
      validate_config config = Raise (Exn ConfigError msg) ->
      ~ reference_message msg).
Proof.
  intro Hoff.
  assert (Hlast : forall c,
             getattr c "references_on" = getattr config "references_on" ->
             check_references_on c =
             (_ <- getattr config "references_on" ;; Ret tt)).
  { intros c Hc. unfold check_references_on. rewrite Hc.
    destruct (getattr config "references_on") as [r|e] eqn:Hr; simpl;
      [|reflexivity].
    rewrite (Hoff r eq_refl). reflexivity. }
  split.
  - intro v. unfold validate_config.
    destruct (earlier_checks_ignore_references config v)
      as (-> & -> & -> & -> & -> & ->).
    rewrite (Hlast (setattr config "references" v)), (Hlast config);
      [reflexivity | reflexivity |].
    apply getattr_setattr_other. reflexivity.
  - intros msg H Hmsg. unfold validate_config in H.
    rewrite (Hlast config eq_refl) in H.
    repeat (apply bind_unit_Raise in H; destruct H as [H|[_ H]];
            [ first [ apply check_mergin_raises in H
                    | apply check_driver_raises in H
                    | apply check_operation_mode_raises in H
                    | apply check_local_raises in H
                    | apply check_minio_raises in H
                    | apply check_allowed_extensions_raises in H ];
              destruct H as [H|H];
              [ injection H as ->; destruct Hmsg as [Hm|Hm]; discriminate Hm
              | exact (from_read_not_config_error _ _ H eq_refl) ]
            | ]).
    unfold bind in H.
    destruct (getattr config "references_on") as [r|e] eqn:Hr; [discriminate|].
    apply getattr_raises in Hr. subst e. discriminate H.
Qed.

(** In the sample local configuration [references_on] is [False]: a
    references list of malformed rules does not change the verdict. *)
Lemma references_validated_only_when_on_witness :
  validate_config (setattr Samples.local_config "references" (VList [VInt 7]))
  = validate_config Samples.local_config.
Proof.
  refine (proj1 (references_validated_only_when_on Samples.local_config _) _).
  intros r H. vm_compute in H. injection H as <-. reflexivity.
Defined.

Lemma check_allowed_extensions_empty config :
  empty_at config "allowed_extensions" ->
  check_allowed_extensions config =
    Raise (Exn ConfigError "Config error: Allowed extensions can not be empty").
Proof.
  intros (v & Hv & He).
  unfold check_allowed_extensions, empty_setting, config_error, bind.
  rewrite Hv, He. reflexivity.
Qed.

Lemma check_allowed_extensions_absent config :
  absent config "allowed_extensions" ->
  check_allowed_extensions config =
    Raise (Exn AttributeError "allowed_extensions").
Proof.
  intro H. apply absent_raises in H.
  unfold check_allowed_extensions, empty_setting, bind. rewrite H. reflexivity.
Qed.

Lemma validate_config_needs_extensions config :
  validate_config config = Ret tt ->
  exists v, getattr config "allowed_extensions" = Ret v /\
            nonempty_collection v = true.
Proof.
  intro H. apply validate_config_ok in H. unfold settings_valid in H.
  rewrite !andb_true_iff in H. destruct H as [[_ H] _].
  unfold has_nonempty in H.
  destruct (getattr config "allowed_extensions") as [v|]; [|discriminate].
  exists v. split; [reflexivity | exact H].
Qed.

(** C7 (as amended).  A configuration whose [allowed_extensions] is absent
    or empty is never accepted: [validate_config] does not return on it, so
    nothing that runs after validation sees an empty allow-list.  When the
    statements before the allow-list check pass, an [allowed_extensions]
    that is there and empty raises
    [ConfigError("Config error: Allowed extensions can not be empty")],
    and one that is not there raises the [AttributeError] of the failed
    read.  Conversely a configuration that [validate_config] accepts has a
    non-empty [allowed_extensions]. *)
Theorem empty_allow_list_never_accepted (config : value) :
  (absent config "allowed_extensions" \/ empty_at config "allowed_extensions" ->
   exists e, validate_config config = Raise e) /\
  (earlier_checks_pass config -> empty_at config "allowed_extensions" ->
   validate_config config =
     Raise (Exn ConfigError "Config error: Allowed extensions can not be empty")) /\
  (earlier_checks_pass config -> absent config "allowed_extensions" ->
   validate_config config = Raise (Exn AttributeError "allowed_extensions")) /\
  (validate_config config = Ret tt ->
   exists v, getattr config "allowed_extensions" = Ret v /\
             nonempty_collection v = true).
Proof.
  split; [|split; [|split]].
  - intro H.
    destruct (validate_config config) as [[]|e] eqn:Hv; [|exists e; reflexivity].
    exfalso.
    destruct (validate_config_needs_extensions config Hv) as (v & Hg & Hn).
    destruct H as [H|(v' & Hg' & He)].
    + apply absent_raises in H. congruence.
    + assert (v' = v) by congruence. subst v'.
      unfold nonempty_collection in Hn. unfold empty in He.
      rewrite He in Hn. discriminate Hn.
  - intros (H1 & H2 & H3 & H4 & H5) He.
    unfold validate_config. rewrite H1, H2, H3, H4, H5. simpl.
    rewrite (check_allowed_extensions_empty config He). reflexivity.
  - intros (H1 & H2 & H3 & H4 & H5) Ha.
    unfold validate_config. rewrite H1, H2, H3, H4, H5. simpl.
    rewrite (check_allowed_extensions_absent config Ha). reflexivity.
  - apply validate_config_needs_extensions.
Qed.

(** The sample local configuration with an empty list of extensions. *)
Lemma empty_allow_list_never_accepted_witness :
  validate_config
    (setattr Samples.local_config "allowed_extensions" (VList [])) =
  Raise (Exn ConfigError "Config error: Allowed extensions can not be empty").
Proof.
  apply (proj1 (proj2 (empty_allow_list_never_accepted
                         (setattr Samples.local_config "allowed_extensions"
                            (VList []))))).
  - repeat split; reflexivity.
  - exists (VList []). split; reflexivity.
Defined.

(** C7, as stated, fails: the sample configuration without the key
    [allowed_extensions] passes every earlier check, and the allow-list
    check then raises [AttributeError], not [ConfigError]. *)
Lemma absent_allow_list_is_attribute_error :
  absent Samples.config_without_extensions "allowed_extensions" /\
  validate_config Samples.config_without_extensions =
    Raise (Exn AttributeError "allowed_extensions") /\
  ~ raises (validate_config Samples.config_without_extensions) ConfigError.
Proof.
  repeat split; try reflexivity.
  intros [msg H]. vm_compute in H. discriminate H.
Qed.

(** *** The samples *)

Example local_config_accepted :
  validate_config Samples.local_config = Ret tt.
Proof. reflexivity. Qed.

Example minio_config_accepted :
  validate_config Samples.minio_config = Ret tt.
Proof. reflexivity. Qed.

Example unknown_driver_rejected :
  validate_config (setattr Samples.local_config "driver" (VStr "ftp")) =
  Raise (Exn ConfigError "Config error: Unsupported driver").
Proof. reflexivity. Qed.

Example empty_password_rejected :
  validate_config
    (setattr Samples.local_config "mergin"
       (setattr Samples.mergin_section "password" VNone)) =
  Raise (Exn ConfigError "Config error: Incorrect mergin settings").
Proof. reflexivity. Qed.

(** With [references_on] on, also written as the integer 1, the rules are
    looked at. *)
Example incomplete_reference_rejected :
  validate_config
    (setattr Samples.minio_config "references"
       (VList [Samples.photo_reference; VBox [("file", VStr "survey.gpkg")]])) =
  Raise (Exn ConfigError "Config error: Incorrect media reference settings").
Proof. reflexivity. Qed.

Example references_on_as_one :
  validate_config
    (setattr (setattr Samples.local_config "references_on" (VInt 1))
       "references" (VList [])) =
  Raise (Exn ConfigError "Config error: References list can not be empty").
Proof. reflexivity. Qed.

End ConfigProps.

(* ===================================================================== *)
(** ** Properties of the daemon *)
(* ===================================================================== *)

Module DaemonProps.
Import Py Daemon DaemonSpec.

(** *** Traces *)

Lemma count_app p (a b : list event) :
  count p (a ++ b) = (count p a + count p b)%nat.
Proof. unfold count. rewrite filter_app, length_app. reflexivity. Qed.

Lemma count_cons p ev (tr : list event) :
  count p (ev :: tr) = ((if p ev then 1 else 0) + count p tr)%nat.
Proof. unfold count. simpl. destruct (p ev); reflexivity. Qed.

Lemma count_nil p : count p [] = 0%nat.
Proof. reflexivity. Qed.

Lemma trace_bind {A B} (m : M A) (k : A -> M B) :
  trace (bind m k) =
  (trace m ++ match ending m with
              | Done a => trace (k a)
              | _ => []
              end)%list.
Proof.
  destruct m as [tr [a|e|c]]; simpl; try (rewrite app_nil_r; reflexivity).
  destruct (k a) as [tr' o]. reflexivity.
Qed.

Lemma ending_bind {A B} (m : M A) (k : A -> M B) :
  ending (bind m k) =
  match ending m with
  | Done a => ending (k a)
  | Failed e => Failed e
  | Exited c => Exited c
  end.
Proof.
  destruct m as [tr [a|e|c]]; simpl; try reflexivity.
  destruct (k a) as [tr' o]. reflexivity.
Qed.

Lemma trace_pair {A} (tr : list event) (o : outcome A) : trace (tr, o) = tr.
Proof. reflexivity. Qed.

Lemma ending_pair {A} (tr : list event) (o : outcome A) : ending (tr, o) = o.
Proof. reflexivity. Qed.

(** *** run_sync_cycle *)

Section Cycle.
Variables (w : world) (k : nat) (mc : client) (d : driver).

(** The cycle, outcome by outcome. *)
Lemma run_sync_cycle_success :
  cycle_error w k mc d = None ->
  run_sync_cycle w k mc d =
  ((Log INFO "Pulling changes from Mergin..." :: cycle_calls w k mc d) ++
   [Log INFO "Sync complete."; GcCollect], Done tt)%list.
Proof.
  unfold cycle_error, cycle_calls, run_sync_cycle, mc_pull, media_sync_push, call.
  destruct (w_mc_pull w k mc) as [files|e]; [|discriminate]. simpl.
  destruct (w_media_sync_push w k mc d files) as [[]|e]; [|discriminate].
  reflexivity.
Qed.

Lemma run_sync_cycle_caught e :
  cycle_error w k mc d = Some e -> exn_cls e = MediaSyncError ->
  run_sync_cycle w k mc d =
  ((Log INFO "Pulling changes from Mergin..." :: cycle_calls w k mc d) ++
   [Log ERROR ("Media sync error: " ++ exn_msg e)], Done tt)%list.
Proof.
  unfold cycle_error, cycle_calls, run_sync_cycle, mc_pull, media_sync_push, call.
  intros H Hc.
  destruct (w_mc_pull w k mc) as [files|e']; simpl.
  - destruct (w_media_sync_push w k mc d files) as [[]|e']; [discriminate|].
    injection H as ->. simpl. unfold instance_of. simpl. rewrite Hc. reflexivity.
  - injection H as ->. unfold instance_of. simpl. rewrite Hc. reflexivity.
Qed.

Lemma run_sync_cycle_escapes e :
  cycle_error w k mc d = Some e -> exn_cls e <> MediaSyncError ->
  run_sync_cycle w k mc d =
  (Log INFO "Pulling changes from Mergin..." :: cycle_calls w k mc d, Failed e).
Proof.
  unfold cycle_error, cycle_calls, run_sync_cycle, mc_pull, media_sync_push, call.
  intros H Hc.
  assert (Hi : instance_of [MediaSyncError] e = false).
  { unfold instance_of. simpl. destruct (exn_cls e); try reflexivity.
    now elim Hc. }
  unfold try_except.
  destruct (w_mc_pull w k mc) as [files|e']; cbn [bind log app].
  - destruct (w_media_sync_push w k mc d files) as [[]|e']; [discriminate|].
    injection H as ->. cbn [bind log app]. rewrite Hi. reflexivity.
  - injection H as ->. rewrite Hi. reflexivity.
Qed.

(** A cycle whose errors are all [MediaSyncError]s returns. *)
Lemma run_sync_cycle_returns :
  cycle_contained w k mc d -> ending (run_sync_cycle w k mc d) = Done tt.
Proof.
  intro H. destruct (cycle_error w k mc d) as [e|] eqn:He.
  - rewrite (run_sync_cycle_caught e He (H e He)). reflexivity.
  - rewrite (run_sync_cycle_success He). reflexivity.
Qed.

End Cycle.

(** *** The token check *)

Section Check.
Variables (w : world) (k : nat) (mc : client).

(** The token check, outcome by outcome. *)
Lemma check_token_expiry_eq :
  check_token_expiry w k mc =
  match expiry_delta w k mc with
  | Raise e => ([CheckExpire mc; warning_of e], Done mc)
  | Ret delta =>
      if delta <? one_hour
      then match w_create_mergin_client w k with
           | Ret mc' =>
               ([CheckExpire mc; Log INFO "Refreshing Mergin auth token...";
                 CreateMerginClient], Done mc')
           | Raise e =>
               ([CheckExpire mc; Log INFO "Refreshing Mergin auth token...";
                 CreateMerginClient; warning_of e], Done mc)
           end
      else ([CheckExpire mc], Done mc)
  end.
Proof.
  unfold check_token_expiry, expiry_delta, create_mergin_client, call,
    total_seconds_lt, one_hour, microseconds_per_second, warning_of.
  destruct (read_expire mc) as [t|e]; cbn [lift bind Py.bind try_except app];
    [|reflexivity].
  destruct (datetime_sub t (Aware (w_now w k))) as [delta|e];
    cbn [lift bind Py.bind try_except app]; [|reflexivity].
  destruct (delta <? 3600 * 1000000); [|reflexivity].
  destruct (w_create_mergin_client w k) as [mc'|e]; reflexivity.
Qed.

(** The check never lets an exception out and never leaves the process. *)
Lemma check_token_expiry_ending :
  ending (check_token_expiry w k mc) = Done (client_after_check w k mc).
Proof.
  rewrite check_token_expiry_eq. unfold client_after_check.
  destruct (expiry_delta w k mc) as [delta|e]; [|reflexivity].
  destruct (delta <? one_hour); [|reflexivity].
  destruct (w_create_mergin_client w k); reflexivity.
Qed.

Lemma check_token_expiry_once :
  count is_expiry_check (trace (check_token_expiry w k mc)) = 1%nat.
Proof.
  rewrite check_token_expiry_eq.
  destruct (expiry_delta w k mc) as [delta|e]; [|reflexivity].
  destruct (delta <? one_hour); [|reflexivity].
  destruct (w_create_mergin_client w k); reflexivity.
Qed.

Lemma refresh_due_iff :
  refresh_due w k mc <->
  exists delta, expiry_delta w k mc = Ret delta /\ (delta <? one_hour) = true.
Proof.
  unfold refresh_due. split; intros (delta & H & Hlt); exists delta;
    (split; [exact H|]); apply Z.ltb_lt; exact Hlt.
Qed.

(** A login is attempted by the check exactly when a refresh is due. *)
Lemma login_attempted_iff :
  In CreateMerginClient (trace (check_token_expiry w k mc)) <->
  refresh_due w k mc.
Proof.
  rewrite refresh_due_iff, check_token_expiry_eq.
  destruct (expiry_delta w k mc) as [delta|e].
  - destruct (delta <? one_hour) eqn:Hlt.
    + split.
      * intros _. exists delta. split; [reflexivity | exact Hlt].
      * intros _. destruct (w_create_mergin_client w k); simpl; auto.
    + split.
      * simpl. intros [H|[]]. discriminate H.
      * intros (delta' & H & Hlt'). congruence.
  - split.
    + simpl. unfold warning_of. intros [H|[H|[]]]; discriminate H.
    + intros (delta' & H & _). discriminate H.
Qed.

Lemma login_at_most_once :
  (count is_login (trace (check_token_expiry w k mc)) <= 1)%nat.
Proof.
  rewrite check_token_expiry_eq.
  destruct (expiry_delta w k mc) as [delta|e]; [|simpl; auto].
  destruct (delta <? one_hour); [|simpl; auto].
  destruct (w_create_mergin_client w k); simpl; auto.
Qed.

End Check.

(** *** One pass of the loop *)

Section Pass.
Variables (w : world) (sleep_time : Z) (d : driver) (k : nat) (mc : client).

(** A pass whose cycle lets no exception out: heartbeat, cycle, token
    check, sleep, in this order; it ends as the sleep ends. *)
Lemma loop_body_contained :
  cycle_contained w k mc d ->
  loop_body w sleep_time d k mc =
  (pass_events w sleep_time k
     (trace (run_sync_cycle w k mc d)) (trace (check_token_expiry w k mc)),
   match w_sleep w k sleep_time with
   | Ret _ => Done (client_after_check w k mc)
   | Raise e => Failed e
   end).
Proof.
  intro Hc. unfold loop_body, pass_events.
  pose proof (run_sync_cycle_returns w k mc d Hc) as Hr.
  pose proof (check_token_expiry_ending w k mc) as He.
  destruct (run_sync_cycle w k mc d) as [tr1 o1]. simpl in Hr. subst o1.
  destruct (check_token_expiry w k mc) as [tr2 o2]. simpl in He. subst o2.
  unfold time_sleep, call, log. cbn [bind trace fst].
  destruct (w_sleep w k sleep_time) as [[]|e]; cbn [bind ret app];
    rewrite ?app_nil_r, <- ?app_assoc; reflexivity.
Qed.

(** A pass whose cycle lets an exception out ends there: no token check,
    no sleep. *)
Lemma loop_body_escapes e :
  cycle_error w k mc d = Some e -> exn_cls e <> MediaSyncError ->
  loop_body w sleep_time d k mc =
  (Log INFO ("Heartbeat: " ++ w_utcnow w k ++ " UTC") ::
   Log INFO "Pulling changes from Mergin..." :: cycle_calls w k mc d,
   Failed e).
Proof.
  intros He Hc. unfold loop_body.
  rewrite (run_sync_cycle_escapes w k mc d e He Hc). reflexivity.
Qed.

End Pass.

(** *** What a cycle and a check can and cannot emit *)

Lemma cycle_events_only w k mc d :
  Forall (fun ev => is_cycle_event ev = true) (trace (run_sync_cycle w k mc d)).
Proof.
  unfold run_sync_cycle, mc_pull, media_sync_push, call, try_except.
  destruct (w_mc_pull w k mc) as [files|e]; cbn [bind log app].
  - destruct (w_media_sync_push w k mc d files) as [[]|e]; cbn [bind log app].
    + repeat constructor.
    + destruct (instance_of [MediaSyncError] e); repeat constructor.
  - destruct (instance_of [MediaSyncError] e); repeat constructor.
Qed.

Lemma count_zero_of_Forall (p q : event -> bool) tr :
  Forall (fun ev => q ev = true) tr ->
  (forall ev, q ev = true -> p ev = false) ->
  count p tr = 0%nat.
Proof.
  intros HF Hpq. induction HF as [|ev tr Hq _ IH]; [reflexivity|].
  rewrite count_cons, (Hpq ev Hq), IH. reflexivity.
Qed.

Lemma cycle_has_no_login w k mc d :
  count is_login (trace (run_sync_cycle w k mc d)) = 0%nat.
Proof.
  apply (count_zero_of_Forall _ _ _ (cycle_events_only w k mc d)).
  intros [[]| | | | | | | | | | | | |]; simpl; congruence.
Qed.

Lemma cycle_has_no_expiry_check w k mc d :
  count is_expiry_check (trace (run_sync_cycle w k mc d)) = 0%nat.
Proof.
  apply (count_zero_of_Forall _ _ _ (cycle_events_only w k mc d)).
  intros [[]| | | | | | | | | | | | |]; simpl; congruence.
Qed.

Lemma count_pos_In p (tr : list event) ev :
  In ev tr -> p ev = true -> (0 < count p tr)%nat.
Proof.
  intros Hin Hp. induction tr as [|a tr IH]; [elim Hin|].
  rewrite count_cons. destruct Hin as [->|Hin].
  - rewrite Hp. apply Nat.lt_0_succ.
  - specialize (IH Hin). destruct (p a); simpl; auto using Nat.lt_lt_succ_r.
Qed.

Lemma refresh_due_raw w k mc :
  refresh_due w k mc <-> expires_within_the_hour w k mc.
Proof.
  unfold refresh_due, expires_within_the_hour, expiry_delta, read_expire,
    one_hour.
  destruct (_auth_session mc) as [s|]; cbn [Py.bind].
  - destruct (expire s) as [[t|t]|] eqn:He; cbn [Py.bind datetime_sub]; split.
    + intros (delta & H & Hlt). injection H as <-.
      exists s, t. repeat split; assumption.
    + intros (s' & t' & Hs & Ht & Hlt). injection Hs as <-.
      rewrite He in Ht. injection Ht as <-.
      exists (t - w_now w k). split; [reflexivity | exact Hlt].
    + intros (delta & H & _). discriminate H.
    + intros (s' & t' & Hs & Ht & _). injection Hs as <-.
      rewrite He in Ht. discriminate Ht.
    + intros (delta & H & _). discriminate H.
    + intros (s' & t' & Hs & Ht & _). injection Hs as <-.
      rewrite He in Ht. discriminate Ht.
  - split.
    + intros (delta & H & _). discriminate H.
    + intros (s' & t' & Hs & _). discriminate Hs.
Qed.

Lemma escaped_pass_has_no_check w sleep_time d k mc e :
  cycle_error w k mc d = Some e -> exn_cls e <> MediaSyncError ->
  ending (loop_body w sleep_time d k mc) = Failed e /\
  count is_expiry_check (trace (loop_body w sleep_time d k mc)) = 0%nat /\
  ~ In CreateMerginClient (trace (loop_body w sleep_time d k mc)).
Proof.
  intros He Hc.
  rewrite (loop_body_escapes w sleep_time d k mc e He Hc), trace_pair,
    ending_pair.
  split; [reflexivity|].
  unfold cycle_calls. destruct (w_mc_pull w k mc); split; try reflexivity;
    simpl; intuition discriminate.
Qed.

(** C1 (as amended).  The token refresh of a pass of the loop.
    - The token check attempts a login (a call of [create_mergin_client])
      if and only if the session holds an expiry timestamp that lies
      strictly less than one hour (3600 seconds) after the current time;
      it does so at most once, and the client a successful login returns is
      the one the loop goes on with.  With [expire - now] equal to 59
      minutes a login is attempted, with 61 minutes it is not.
    - In a pass whose cycle hands control back, whether pull and push
      succeeded or one of them raised a [MediaSyncError], the pass is
      heartbeat, cycle, token check, sleep: the check runs exactly once,
      after the cycle, and the logins of the pass are those of the check.
    - In a pass whose cycle raises any other exception the check does not
      run and no login is attempted: the pass ends with that exception. *)
Theorem token_refresh_after_returning_cycle
    (w : world) (sleep_time : Z) (d : driver) (k : nat) (mc : client) :
  (In CreateMerginClient (trace (check_token_expiry w k mc)) <->
   expires_within_the_hour w k mc) /\
  (count is_login (trace (check_token_expiry w k mc)) <= 1)%nat /\
  (forall mc', expires_within_the_hour w k mc ->
               w_create_mergin_client w k = Ret mc' ->
               ending (check_token_expiry w k mc) = Done mc') /\
  (forall s t, _auth_session mc = Some s -> expire s = Some (Aware t) ->
               t - w_now w k = 59 * 60 * 1000000 ->
               In CreateMerginClient (trace (check_token_expiry w k mc))) /\
  (forall s t, _auth_session mc = Some s -> expire s = Some (Aware t) ->
               t - w_now w k = 61 * 60 * 1000000 ->
               ~ In CreateMerginClient (trace (check_token_expiry w k mc))) /\
  (cycle_contained w k mc d ->
   trace (loop_body w sleep_time d k mc) =
     pass_events w sleep_time k (trace (run_sync_cycle w k mc d))
       (trace (check_token_expiry w k mc)) /\
   count is_expiry_check (trace (loop_body w sleep_time d k mc)) = 1%nat /\
   (In CreateMerginClient (trace (loop_body w sleep_time d k mc)) <->
    expires_within_the_hour w k mc)) /\
  (forall e, cycle_error w k mc d = Some e -> exn_cls e <> MediaSyncError ->
   ending (loop_body w sleep_time d k mc) = Failed e /\
   count is_expiry_check (trace (loop_body w sleep_time d k mc)) = 0%nat /\
   ~ In CreateMerginClient (trace (loop_body w sleep_time d k mc))).
Proof.
  split; [rewrite <- refresh_due_raw; apply login_attempted_iff|].
  split; [apply login_at_most_once|].
  split; [|split; [|split; [|split]]].
  - intros mc' Hdue Hlogin. rewrite check_token_expiry_ending.
    apply refresh_due_raw, refresh_due_iff in Hdue.
    destruct Hdue as (delta & Hd & Hlt).
    unfold client_after_check. rewrite Hd, Hlt, Hlogin. reflexivity.
  - intros s t Hs Ht H. apply login_attempted_iff, refresh_due_raw.
    exists s, t. repeat split; try assumption. rewrite H. reflexivity.
  - intros s t Hs Ht H Hin. apply login_attempted_iff, refresh_due_raw in Hin.
    destruct Hin as (s' & t' & Hs' & Ht' & Hlt).
    rewrite Hs in Hs'. injection Hs' as <-.
    rewrite Ht in Ht'. injection Ht' as <-. lia.
  - intro Hc. rewrite (loop_body_contained w sleep_time d k mc Hc).
    rewrite trace_pair.
    split; [reflexivity|]. split.
    + unfold pass_events. rewrite !count_app.
      rewrite cycle_has_no_expiry_check, check_token_expiry_once. reflexivity.
    + rewrite <- refresh_due_raw, <- login_attempted_iff. unfold pass_events.
      rewrite !in_app_iff. split.
      * intros [[H|[]]|[H|[H|[H|[H|[]]]]]]; try discriminate H; [|exact H].
        exfalso. apply (count_pos_In is_login) in H; [|reflexivity].
        rewrite cycle_has_no_login in H. inversion H.
      * intro H. right. right. left. exact H.
  - intros e He Hc. exact (escaped_pass_has_no_check w sleep_time d k mc e He Hc).
Qed.

(** In the calm world a client whose token expires 59 minutes after the
    clock reading of pass 1 is refreshed in that pass. *)
Lemma token_refresh_after_returning_cycle_witness :
  In CreateMerginClient
     (trace (loop_body Samples.calm 10 LocalDriver 1
               (Samples.client_expiring 0 (10000000 + 59 * 60 * 1000000)))).
Proof.
  destruct (token_refresh_after_returning_cycle Samples.calm 10 LocalDriver 1
              (Samples.client_expiring 0 (10000000 + 59 * 60 * 1000000)))
    as (_ & _ & _ & _ & _ & H & _).
  apply H.
  - intros e He. vm_compute in He. discriminate He.
  - exists (AuthSession "Bearer abc" (Some (Aware (10000000 + 59 * 60 * 1000000)))),
      (10000000 + 59 * 60 * 1000000).
    repeat split; reflexivity.
Defined.

(** C1, as stated, fails in its last part: the check does not happen in
    every pass whatever the outcome of the cycle.  In the world
    [network_down] the pull of pass 1 raises [OSError]; the client held
    expires 59 minutes after the clock reading of that pass, yet the pass
    contains no expiry check and no login, and ends with the exception. *)
Lemma no_token_check_after_escaped_cycle :
  let mc := Samples.client_expiring 0 (10000000 + 59 * 60 * 1000000) in
  expires_within_the_hour Samples.network_down 1 mc /\
  count is_expiry_check
    (trace (loop_body Samples.network_down 10 LocalDriver 1 mc)) = 0%nat /\
  ~ In CreateMerginClient
      (trace (loop_body Samples.network_down 10 LocalDriver 1 mc)) /\
  ending (loop_body Samples.network_down 10 LocalDriver 1 mc) =
    Failed (Exn OSError "Network is unreachable").
Proof.
  cbv zeta. split; [|split; [|split]].
  - exists (AuthSession "Bearer abc" (Some (Aware (10000000 + 59 * 60 * 1000000)))),
      (10000000 + 59 * 60 * 1000000).
    repeat split; reflexivity.
  - reflexivity.
  - simpl. intuition discriminate.
  - reflexivity.
Qed.

(** *** The loop *)

Lemma cycle_contained_or_escapes w k mc d :
  cycle_contained w k mc d \/
  exists e, cycle_error w k mc d = Some e /\ exn_cls e <> MediaSyncError.
Proof.
  unfold cycle_contained.
  destruct (cycle_error w k mc d) as [e|]; [|left; discriminate].
  destruct (exn_class_eqb (exn_cls e) MediaSyncError) eqn:Hc.
  - left. intros e' H. injection H as <-.
    destruct (exn_cls e); try discriminate Hc. reflexivity.
  - right. exists e. split; [reflexivity|].
    intro H. rewrite H in Hc. discriminate Hc.
Qed.

Lemma single_cycle_error w k mc d e :
  cycle_error w k mc d = Some e -> exn_cls e = MediaSyncError ->
  cycle_contained w k mc d.
Proof. intros He Hc e' He'. congruence. Qed.

Lemma sync_loop_next w sleep_time d fuel k mc tr mc' :
  loop_body w sleep_time d k mc = (tr, Done mc') ->
  sync_loop w sleep_time d (S fuel) k mc =
  ((tr ++ trace (sync_loop w sleep_time d fuel (S k) mc'))%list,
   ending (sync_loop w sleep_time d fuel (S k) mc')).
Proof.
  intro H. cbn [sync_loop]. rewrite H. cbn [bind].
  destruct (sync_loop w sleep_time d fuel (S k) mc'). reflexivity.
Qed.

Lemma sync_loop_stops w sleep_time d fuel k mc tr e :
  loop_body w sleep_time d k mc = (tr, Failed e) ->
  sync_loop w sleep_time d (S fuel) k mc = (tr, Failed e).
Proof. intro H. cbn [sync_loop]. rewrite H. reflexivity. Qed.

(** A pass ends with the next pass due or with an exception, never with
    [sys.exit]. *)
Lemma loop_body_ending w sleep_time d k mc :
  (exists mc', ending (loop_body w sleep_time d k mc) = Done mc') \/
  (exists e, ending (loop_body w sleep_time d k mc) = Failed e).
Proof.
  destruct (cycle_contained_or_escapes w k mc d) as [Hc|(e & He & Hc)].
  - rewrite (loop_body_contained w sleep_time d k mc Hc), ending_pair.
    destruct (w_sleep w k sleep_time) as [u|e]; [left|right]; eexists;
      reflexivity.
  - rewrite (loop_body_escapes w sleep_time d k mc e He Hc).
    right. exists e. reflexivity.
Qed.

Lemma sync_loop_never_exits w sleep_time d fuel :
  forall k mc c, ending (sync_loop w sleep_time d fuel k mc) <> Exited c.
Proof.
  induction fuel as [|fuel IH]; intros k mc c.
  - discriminate.
  - cbn [sync_loop]. rewrite ending_bind.
    destruct (loop_body_ending w sleep_time d k mc) as [[mc' ->]|[e ->]].
    + apply IH.
    + discriminate.
Qed.

(** *** Lines of a pass *)

Lemma cycle_has_no_heartbeat w k mc d :
  count is_heartbeat (trace (run_sync_cycle w k mc d)) = 0%nat.
Proof.
  unfold run_sync_cycle, mc_pull, media_sync_push, call, try_except.
  destruct (w_mc_pull w k mc) as [files|e]; cbn [bind log app].
  - destruct (w_media_sync_push w k mc d files) as [[]|e]; cbn [bind log app].
    + reflexivity.
    + destruct (instance_of [MediaSyncError] e); reflexivity.
  - destruct (instance_of [MediaSyncError] e); reflexivity.
Qed.

Lemma check_has_no_heartbeat w k mc :
  count is_heartbeat (trace (check_token_expiry w k mc)) = 0%nat.
Proof.
  rewrite check_token_expiry_eq.
  destruct (expiry_delta w k mc) as [delta|e]; [|reflexivity].
  destruct (delta <? one_hour); [|reflexivity].
  destruct (w_create_mergin_client w k); reflexivity.
Qed.

Lemma cycle_calls_no_summary w k mc d :
  filter is_summary (cycle_calls w k mc d) = [].
Proof. unfold cycle_calls. destruct (w_mc_pull w k mc); reflexivity. Qed.

Lemma error_line_is_summary e :
  is_summary (Log ERROR ("Media sync error: " ++ exn_msg e)) = true.
Proof. reflexivity. Qed.

(** One heartbeat line per pass, written first. *)
Lemma one_heartbeat_in_pass w sleep_time d k mc :
  count is_heartbeat (trace (loop_body w sleep_time d k mc)) = 1%nat /\
  hd_error (trace (loop_body w sleep_time d k mc)) =
    Some (Log INFO ("Heartbeat: " ++ w_utcnow w k ++ " UTC")).
Proof.
  split.
  - destruct (cycle_contained_or_escapes w k mc d) as [Hc|(e & He & Hc)].
    + rewrite (loop_body_contained w sleep_time d k mc Hc), trace_pair.
      unfold pass_events. rewrite !count_app.
      rewrite cycle_has_no_heartbeat, check_has_no_heartbeat. reflexivity.
    + rewrite (loop_body_escapes w sleep_time d k mc e He Hc), trace_pair.
      rewrite !count_cons.
      change (count is_heartbeat (cycle_calls w k mc d))
        with (List.length (filter is_heartbeat (cycle_calls w k mc d))).
      unfold cycle_calls. destruct (w_mc_pull w k mc); reflexivity.
  - unfold loop_body, log. cbn [bind].
    destruct (_ ;; _) as [tr o]. reflexivity.
Qed.

(** C5 (as amended).  Heartbeat and summary.  Every pass of the loop
    writes exactly one heartbeat line, first of all, of the form
    ["Heartbeat: <utcnow in ISO format> UTC"].  A cycle whose pull and push
    both return writes exactly one summary line, ["Sync complete."]; a
    cycle whose pull or push raises a [MediaSyncError] writes exactly one
    summary line, the error line with the message of that exception, and
    returns.  A cycle whose pull or push raises any other exception writes
    no summary line: the exception leaves the cycle. *)
Theorem heartbeat_and_summary_lines
    (w : world) (sleep_time : Z) (d : driver) (k : nat) (mc : client) :
  count is_heartbeat (trace (loop_body w sleep_time d k mc)) = 1%nat /\
  hd_error (trace (loop_body w sleep_time d k mc)) =
    Some (Log INFO ("Heartbeat: " ++ w_utcnow w k ++ " UTC")) /\
  (cycle_error w k mc d = None ->
   filter is_summary (trace (run_sync_cycle w k mc d)) =
     [Log INFO "Sync complete."] /\
   ending (run_sync_cycle w k mc d) = Done tt) /\
  (forall e, cycle_error w k mc d = Some e -> exn_cls e = MediaSyncError ->
   filter is_summary (trace (run_sync_cycle w k mc d)) =
     [Log ERROR ("Media sync error: " ++ exn_msg e)] /\
   ending (run_sync_cycle w k mc d) = Done tt) /\
  (forall e, cycle_error w k mc d = Some e -> exn_cls e <> MediaSyncError ->
   filter is_summary (trace (run_sync_cycle w k mc d)) = [] /\
   ending (run_sync_cycle w k mc d) = Failed e).
Proof.
  split; [apply one_heartbeat_in_pass|].
  split; [apply one_heartbeat_in_pass|].
  split; [|split].
  - intro He. rewrite (run_sync_cycle_success w k mc d He), trace_pair.
    rewrite filter_app. cbn [filter].
    rewrite cycle_calls_no_summary. split; reflexivity.
  - intros e He Hc.
    rewrite (run_sync_cycle_caught w k mc d e He Hc), trace_pair.
    rewrite filter_app. cbn [filter].
    rewrite cycle_calls_no_summary, error_line_is_summary. split; reflexivity.
  - intros e He Hc.
    rewrite (run_sync_cycle_escapes w k mc d e He Hc), trace_pair.
    cbn [filter]. rewrite cycle_calls_no_summary. split; reflexivity.
Qed.

(** With the server down, the cycle of pass 1 returns with the error line
    as its only summary. *)
Lemma heartbeat_and_summary_lines_witness :
  filter is_summary
    (trace (run_sync_cycle Samples.server_down 1
              (Samples.client_expiring 0 (30 * Samples.minute)) LocalDriver)) =
  [Log ERROR "Media sync error: Mergin client error: 503"].
Proof.
  destruct (heartbeat_and_summary_lines Samples.server_down 10 LocalDriver 1
              (Samples.client_expiring 0 (30 * Samples.minute)))
    as (_ & _ & _ & H & _).
  destruct (H (Exn MediaSyncError "Mergin client error: 503")) as [Hs _].
  - reflexivity.
  - reflexivity.
  - exact Hs.
Defined.

(** C5, as stated, fails: not every cycle writes a summary line.  In the
    world [network_down] the cycle of pass 1 calls the pull, which raises
    [OSError]; the cycle writes ["Pulling changes from Mergin..."] and
    nothing else, neither the success line nor an error line. *)
Lemma cycle_without_summary_line :
  let mc := Samples.client_expiring 0 (10 * Samples.hour) in
  trace (run_sync_cycle Samples.network_down 1 mc LocalDriver) =
    [Log INFO "Pulling changes from Mergin..."; McPull mc] /\
  count is_summary
    (trace (run_sync_cycle Samples.network_down 1 mc LocalDriver)) = 0%nat /\
  count is_summary
    (trace (main Samples.network_down 3)) = 0%nat.
Proof. repeat split; reflexivity. Qed.

Lemma cycle_calls_no_error_line w k mc d :
  filter is_error_line (cycle_calls w k mc d) = [].
Proof. unfold cycle_calls. destruct (w_mc_pull w k mc); reflexivity. Qed.

(** C2 (as amended).  A [MediaSyncError] raised by the pull or the push of
    a cycle is caught at the cycle boundary: [run_sync_cycle] returns, the
    error is logged in one line of severity ERROR carrying its message, and
    the pass goes on with the token check and the sleep; when the sleep
    returns, the loop begins its next pass. *)
Theorem media_sync_error_caught
    (w : world) (sleep_time : Z) (d : driver) (k : nat) (mc : client)
    (e : exn) :
  cycle_error w k mc d = Some e -> exn_cls e = MediaSyncError ->
  ending (run_sync_cycle w k mc d) = Done tt /\
  filter is_error_line (trace (run_sync_cycle w k mc d)) =
    [Log ERROR ("Media sync error: " ++ exn_msg e)] /\
  trace (loop_body w sleep_time d k mc) =
    pass_events w sleep_time k (trace (run_sync_cycle w k mc d))
      (trace (check_token_expiry w k mc)) /\
  (forall u fuel, w_sleep w k sleep_time = Ret u ->
     sync_loop w sleep_time d (S fuel) k mc =
     ((trace (loop_body w sleep_time d k mc) ++
       trace (sync_loop w sleep_time d fuel (S k) (client_after_check w k mc)))%list,
      ending (sync_loop w sleep_time d fuel (S k) (client_after_check w k mc)))).
Proof.
  intros He Hc.
  pose proof (single_cycle_error w k mc d e He Hc) as Hcont.
  split; [exact (run_sync_cycle_returns w k mc d Hcont)|].
  split.
  - rewrite (run_sync_cycle_caught w k mc d e He Hc), trace_pair.
    rewrite filter_app. cbn [filter is_error_line].
    rewrite cycle_calls_no_error_line. reflexivity.
  - rewrite (loop_body_contained w sleep_time d k mc Hcont), trace_pair.
    split; [reflexivity|].
    intros u fuel Hs. apply sync_loop_next.
    rewrite (loop_body_contained w sleep_time d k mc Hcont), Hs. reflexivity.
Qed.

(** With the server down, the failed pull of pass 1 is logged and the
    loop goes on. *)
Lemma media_sync_error_caught_witness :
  ending (run_sync_cycle Samples.server_down 1
            (Samples.client_expiring 0 (30 * Samples.minute)) LocalDriver) =
  Done tt.
Proof.
  destruct (media_sync_error_caught Samples.server_down 10 LocalDriver 1
              (Samples.client_expiring 0 (30 * Samples.minute))
              (Exn MediaSyncError "Mergin client error: 503"))
    as (H & _).
  - reflexivity.
  - reflexivity.
  - exact H.
Defined.

(** C2, as stated, fails: an exception of the cycle that is not a
    [MediaSyncError] passes the [except] clause of [run_sync_cycle] and
    leaves [main].  In the world [network_down] the pull of pass 1 raises
    [OSError]: nothing is logged at severity ERROR, no token check and no
    sleep follow, and the process ends with that exception however many
    passes it was given. *)
Lemma unwrapped_error_ends_daemon :
  let e := Exn OSError "Network is unreachable" in
  let mc := Samples.client_expiring 0 (10 * Samples.hour) in
  ending (startup Samples.network_down) = Done (10, LocalDriver, mc) /\
  cycle_error Samples.network_down 1 mc LocalDriver = Some e /\
  ending (run_sync_cycle Samples.network_down 1 mc LocalDriver) = Failed e /\
  (forall fuel, ending (main Samples.network_down (S fuel)) = Failed e) /\
  (forall fuel,
      count is_error_line (trace (main Samples.network_down (S fuel))) = 0%nat /\
      count is_heartbeat (trace (main Samples.network_down (S fuel))) = 1%nat).
Proof.
  repeat split; reflexivity.
Qed.




(** *** The loop goes on *)


(** *** Startup *)

Ltac run_startup :=
  cbv beta iota zeta
      delta [bind try_except lift call app log sys_exit ret trace ending fst snd
             negb].

(** Case analysis on the next answer of the world that the computation in
    the goal waits for. *)
Ltac next_answer :=
  match goal with
  | |- context [match ?x with _ => _ end] =>
      lazymatch x with
      | context [match _ with _ => _ end] => fail
      | _ => destruct x eqn:?
      end
  end.

Ltac unfold_startup :=
  unfold startup, parse_args, load_config, update_config_path,
    validate_config, as_int, make_driver, create_driver, initial_sync,
    create_mergin_client, path_exists, mc_download, media_sync_push.

(** Nothing that belongs to a pass of the loop happens during startup. *)
Lemma startup_no_loop_events w :
  Forall (fun ev => is_loop_event ev = false) (trace (startup w)).
Proof.
  unfold_startup. run_startup.
  repeat (next_answer; run_startup); repeat constructor.
Qed.

Lemma startup_downloads_at_most_once w :
  (count is_download (trace (startup w)) <= 1)%nat.
Proof.
  unfold_startup. run_startup.
  repeat (next_answer; run_startup); unfold count; simpl; auto.
Qed.

(** Make the answers found by case analysis agree with the ones assumed. *)
Ltac agree :=
  try congruence;
  repeat match goal with
         | H : Ret _ = Ret _ |- _ => injection H as ?; subst
         | H : Raise _ = Raise _ |- _ => injection H as ?; subst
         | H : Args _ = Args _ |- _ => injection H as ?; subst
         | H1 : ?x = _, H2 : ?x = _ |- _ =>
             rewrite H1 in H2; first [discriminate H2 | injection H2 as ?; subst]
         end.

Lemma startup_download_needs_no_dir w mc :
  In (McDownload mc) (trace (startup w)) ->
  exists path config wd,
    w_parse_args w = Args path /\
    w_update_config_path w path = Ret config /\
    getattr config "project_working_dir" = Ret wd /\
    w_path_exists w wd = Ret false.
Proof.
  unfold_startup. run_startup.
  repeat (next_answer; run_startup); intro H; simpl in H;
    repeat (destruct H as [H|H]; try discriminate H); try contradiction;
    eauto 10.
Qed.

(** [sys.exit] at startup: with status 1, or by the argument parser. *)
Lemma startup_exit_status w c :
  ending (startup w) = Exited c -> c = 1 \/ w_parse_args w = ArgExit c.
Proof.
  unfold_startup. run_startup.
  repeat (next_answer; run_startup); intro H; try discriminate H;
    injection H as <-; auto.
Qed.


Lemma main_without_startup w fuel :
  (forall s, ending (startup w) <> Done s) -> main w fuel =
  (trace (startup w),
   match ending (startup w) with
   | Done _ => Failed (Exn RuntimeError "")
   | Failed e => Failed e
   | Exited c => Exited c
   end).
Proof.
  intro H. unfold main. destruct (startup w) as [tr [s|e|c]]; try reflexivity.
  elim (H s). reflexivity.
Qed.

(** What startup does when one of its steps fails with the exception its
    [except] clause names. *)
Lemma fatal_startup_trace w e prefix :
  fatal_startup w e prefix ->
  ending (startup w) = Exited 1 /\
  filter is_error_line (trace (startup w)) = [Log ERROR (prefix ++ exn_msg e)] /\
  last (trace (startup w)) ParseArgs = SysExit 1.
Proof.
  intro H.
  destruct H as
    [ path e H1 H2 Hi
    | path config e H1 H2 H3 Hi
    | path config st e (H1 & H2 & H3) H4 H5 Hi
    | path config st d e ((H1 & H2 & H3) & H4 & H5) H6 Hi
    | path config st d mc wd e ((H1 & H2 & H3) & H4 & H5) H6 H7 H8 H9 Hi
    | path config st d mc wd files e ((H1 & H2 & H3) & H4 & H5) H6 H7 H8 H9 H10 Hi ];
    unfold_startup; run_startup;
    repeat (next_answer; agree; run_startup);
    repeat split; reflexivity.
Qed.

(** The run of [main] on a configuration that [validate_config] does not
    accept. *)
Lemma main_with_invalid_config w fuel path config e :
  w_parse_args w = Args path ->
  w_update_config_path w path = Ret config ->
  Config.validate_config config = Raise e ->
  main w fuel =
  if instance_of [OSError; ConfigError] e
  then ([ParseArgs;
         Log INFO ("== Starting Mergin Media Sync daemon v" ++ w_version w ++ " ==");
         UpdateConfigPath path;
         Log ERROR ("Configuration error: " ++ exn_msg e); SysExit 1],
        Exited 1)
  else ([ParseArgs;
         Log INFO ("== Starting Mergin Media Sync daemon v" ++ w_version w ++ " ==");
         UpdateConfigPath path],
        Failed e).
Proof.
  intros H1 H2 H3.
  unfold main. unfold_startup. run_startup.
  rewrite H1. run_startup. rewrite H2. run_startup. rewrite H3. run_startup.
  destruct (instance_of [OSError; ConfigError] e); reflexivity.
Qed.

(** C3 (as amended).  Fatal startup conditions.
    - When a startup step fails with an exception of the class its
      [except] clause names ([IOError] or [ConfigError] while the
      configuration is loaded and validated, [DriverError] from
      [create_driver], [MediaSyncError] from the initial login, download or
      push), [main] writes one line of severity ERROR carrying the message
      of the exception and ends the process with [sys.exit(1)].
    - A configuration that does not pass the checks of [validate_config]
      never gets further than validation: [validate_config] raises, and
      [main] ends right after loading the configuration, with the ERROR
      line and [sys.exit(1)] when the exception is a [ConfigError], and
      with the exception itself, unlogged, when it is of another class
      (the [AttributeError] of a missing setting).
    - Whatever happens during startup, nothing that belongs to a pass of
      the loop happens in it; and when startup does not succeed, no pass
      is ever entered, whatever number of passes would be allowed. *)
Theorem startup_failure_handling (w : world) (fuel : nat) :
  (forall e prefix,
      fatal_startup w e prefix ->
      ending (main w fuel) = Exited 1 /\
      exit_status (ending (main w fuel)) = Some 1 /\
      filter is_error_line (trace (main w fuel)) =
        [Log ERROR (prefix ++ exn_msg e)] /\
      last (trace (main w fuel)) ParseArgs = SysExit 1) /\
  (forall path config,
      w_parse_args w = Args path ->
      w_update_config_path w path = Ret config ->
      ConfigSpec.settings_valid config = false ->
      exists e,
        Config.validate_config config = Raise e /\
        main w fuel =
        if instance_of [OSError; ConfigError] e
        then ([ParseArgs;
               Log INFO ("== Starting Mergin Media Sync daemon v"
                         ++ w_version w ++ " ==");
               UpdateConfigPath path;
               Log ERROR ("Configuration error: " ++ exn_msg e); SysExit 1],
              Exited 1)
        else ([ParseArgs;
               Log INFO ("== Starting Mergin Media Sync daemon v"
                         ++ w_version w ++ " ==");
               UpdateConfigPath path],
              Failed e)) /\
  Forall (fun ev => is_loop_event ev = false) (trace (startup w)) /\
  ((forall s, ending (startup w) <> Done s) ->
   trace (main w fuel) = trace (startup w) /\
   Forall (fun ev => is_loop_event ev = false) (trace (main w fuel))).
Proof.
  split; [|split; [|split]].
  - intros e prefix H.
    destruct (fatal_startup_trace w e prefix H) as (He & Hl & Hx).
    assert (Hm : main w fuel = (trace (startup w), Exited 1)).
    { rewrite main_without_startup; [rewrite He; reflexivity|].
      intros s Hs. rewrite He in Hs. discriminate Hs. }
    rewrite Hm, trace_pair, ending_pair.
    repeat split; assumption.
  - intros path config H1 H2 Hv.
    destruct (Config.validate_config config) as [[]|e] eqn:Hc.
    + apply ConfigProps.validate_config_ok in Hc. congruence.
    + exists e. split; [reflexivity|].
      exact (main_with_invalid_config w fuel path config e H1 H2 Hc).
  - apply startup_no_loop_events.
  - intro Hs. rewrite (main_without_startup w fuel Hs), trace_pair.
    split; [reflexivity | apply startup_no_loop_events].
Qed.

(** The configuration file named on the command line does not exist. *)
Lemma startup_failure_handling_witness :
  ending (main Samples.no_config_file 3) = Exited 1.
Proof.
  destruct (startup_failure_handling Samples.no_config_file 3) as (H & _).
  destruct (H (Exn OSError "Config file missing.yaml does not exist.")
              "Configuration error: ") as (He & _).
  - apply (config_unreadable Samples.no_config_file "missing.yaml");
      reflexivity.
  - exact He.
Defined.

(** C3, as stated, fails: not every fatal startup condition is logged and
    turned into [sys.exit(1)].  In the world [no_extensions_key] the
    configuration file lacks the key [allowed_extensions]: the
    configuration is not valid, [validate_config] raises [AttributeError],
    which the clause [except (IOError, ConfigError)] does not name, and
    [main] ends with that exception: no ERROR line, no [sys.exit]. *)
Lemma missing_setting_ends_startup_unlogged :
  ConfigSpec.settings_valid Samples.config_without_extensions = false /\
  ending (main MoreSpec.no_extensions_key 3) =
    Failed (Exn AttributeError "allowed_extensions") /\
  ending (main MoreSpec.no_extensions_key 3) <> Exited 1 /\
  count is_error_line (trace (main MoreSpec.no_extensions_key 3)) = 0%nat /\
  ~ In (SysExit 1) (trace (main MoreSpec.no_extensions_key 3)).
Proof.
  split; [reflexivity|]. split; [reflexivity|].
  split; [discriminate|]. split; [reflexivity|].
  simpl. intuition discriminate.
Qed.

(** *** Bootstrap *)

Lemma count_zero_of_Forall_false (p : event -> bool) tr :
  Forall (fun ev => p ev = false) tr -> count p tr = 0%nat.
Proof.
  intro HF. induction HF as [|ev tr Hp _ IH]; [reflexivity|].
  rewrite count_cons, Hp, IH. reflexivity.
Qed.

Lemma loop_body_no_download w sleep_time d k mc :
  count is_download (trace (loop_body w sleep_time d k mc)) = 0%nat.
Proof.
  destruct (cycle_contained_or_escapes w k mc d) as [Hc|(e & He & Hc)].
  - rewrite (loop_body_contained w sleep_time d k mc Hc), trace_pair.
    unfold pass_events. rewrite !count_app.
    rewrite (count_zero_of_Forall is_download _ _ (cycle_events_only w k mc d)).
    + rewrite check_token_expiry_eq.
      destruct (expiry_delta w k mc) as [delta|e]; [|reflexivity].
      destruct (delta <? one_hour); [|reflexivity].
      destruct (w_create_mergin_client w k); reflexivity.
    + intros [[]| | | | | | | | | | | | |]; simpl; congruence.
  - rewrite (loop_body_escapes w sleep_time d k mc e He Hc), trace_pair.
    unfold cycle_calls. destruct (w_mc_pull w k mc); reflexivity.
Qed.

Lemma sync_loop_no_download w sleep_time d fuel :
  forall k mc,
    count is_download (trace (sync_loop w sleep_time d fuel k mc)) = 0%nat.
Proof.
  induction fuel as [|fuel IH]; intros k mc; [reflexivity|].
  cbn [sync_loop]. rewrite trace_bind, count_app, loop_body_no_download.
  destruct (ending (loop_body w sleep_time d k mc)); [apply IH | | ];
    reflexivity.
Qed.

Lemma main_trace w fuel :
  trace (main w fuel) =
  (trace (startup w) ++
   match ending (startup w) with
   | Done (sleep_time, d, mc) => trace (sync_loop w sleep_time d fuel 1 mc)
   | _ => []
   end)%list.
Proof.
  unfold main. rewrite trace_bind.
  destruct (ending (startup w)) as [[[st d] mc]| |]; reflexivity.
Qed.

Lemma main_downloads_in_startup w fuel :
  count is_download (trace (main w fuel)) =
  count is_download (trace (startup w)).
Proof.
  rewrite main_trace, count_app.
  destruct (ending (startup w)) as [[[st d] mc]| |];
    rewrite ?sync_loop_no_download, ?count_nil; apply Nat.add_0_r.
Qed.

(** Startup when the working directory is there. *)
Lemma startup_with_working_dir w path config sleep_time d mc wd :
  driver_made w path config sleep_time d ->
  w_create_mergin_client w 0 = Ret mc ->
  getattr config "project_working_dir" = Ret wd ->
  w_path_exists w wd = Ret true ->
  startup w =
  ([ParseArgs;
    Log INFO ("== Starting Mergin Media Sync daemon v" ++ w_version w ++ " ==");
    UpdateConfigPath path; AsInt "daemon.sleep_time"; CreateDriver;
    Log INFO "Logging in to Mergin..."; CreateMerginClient; PathExists wd;
    Log INFO "Entering sync loop..."],
   Done (sleep_time, d, mc)).
Proof.
  intros ((H1 & H2 & H3) & H4 & H5) H6 H7 H8.
  unfold_startup. run_startup.
  repeat (next_answer; agree; run_startup).
  reflexivity.
Qed.

(** C6.  The bootstrap.  In any run of [main], [mc_download] is called at
    most once, and a call of it means that the working directory of the
    loaded configuration did not exist at startup.  When the working
    directory exists, startup goes from the login and the test of the
    directory straight to ["Entering sync loop..."], and the run never
    calls [mc_download]. *)
Theorem bootstrap_only_without_working_dir (w : world) (fuel : nat) :
  (count is_download (trace (main w fuel)) <= 1)%nat /\
  (forall mc, In (McDownload mc) (trace (main w fuel)) ->
     exists path config wd,
       w_parse_args w = Args path /\
       w_update_config_path w path = Ret config /\
       getattr config "project_working_dir" = Ret wd /\
       w_path_exists w wd = Ret false) /\
  (forall path config sleep_time d mc wd,
     driver_made w path config sleep_time d ->
     w_create_mergin_client w 0 = Ret mc ->
     getattr config "project_working_dir" = Ret wd ->
     w_path_exists w wd = Ret true ->
     startup w =
       ([ParseArgs;
         Log INFO ("== Starting Mergin Media Sync daemon v" ++ w_version w ++ " ==");
         UpdateConfigPath path; AsInt "daemon.sleep_time"; CreateDriver;
         Log INFO "Logging in to Mergin..."; CreateMerginClient; PathExists wd;
         Log INFO "Entering sync loop..."],
        Done (sleep_time, d, mc)) /\
     count is_download (trace (main w fuel)) = 0%nat).
Proof.
  split; [|split].
  - rewrite main_downloads_in_startup. apply startup_downloads_at_most_once.
  - intros mc Hin. apply (startup_download_needs_no_dir w mc).
    rewrite main_trace, in_app_iff in Hin. destruct Hin as [Hin|Hin];
      [exact Hin|].
    exfalso.
    destruct (ending (startup w)) as [[[st d] mc0]| |]; try contradiction.
    apply (count_pos_In is_download) in Hin; [|reflexivity].
    rewrite sync_loop_no_download in Hin. inversion Hin.
  - intros path config st d mc wd Hd Hl Hg He.
    pose proof (startup_with_working_dir w path config st d mc wd Hd Hl Hg He)
      as Hs.
    split; [exact Hs|].
    rewrite main_downloads_in_startup, Hs. reflexivity.
Qed.

(** In the calm world the working directory exists: no download in three
    passes. *)
Lemma bootstrap_only_without_working_dir_witness :
  count is_download (trace (main Samples.calm 3)) = 0%nat.
Proof.
  destruct (bootstrap_only_without_working_dir Samples.calm 3) as (_ & _ & H).
  apply (H "config.yaml" Samples.local_config 10 LocalDriver
           (Samples.client_expiring 0 (10 * Samples.hour))
           (VStr "/tmp/mediasync"));
    repeat split; reflexivity.
Defined.

(** *** The loop does not end *)

Lemma startup_no_heartbeat w :
  count is_heartbeat (trace (startup w)) = 0%nat.
Proof.
  apply count_zero_of_Forall_false.
  eapply Forall_impl; [|apply startup_no_loop_events].
  intros ev H. unfold is_loop_event in H.
  destruct (is_heartbeat ev); [discriminate H | reflexivity].
Qed.



(** *** The samples *)

(** On a fresh machine the project is downloaded and pushed once, before
    the loop. *)
Example fresh_machine_bootstrap :
  let mc := Samples.client_expiring 0 (10 * Samples.hour) in
  trace (startup Samples.fresh_machine) =
  [ParseArgs; Log INFO "== Starting Mergin Media Sync daemon v1.0.0 ==";
   UpdateConfigPath "config.yaml"; AsInt "daemon.sleep_time"; CreateDriver;
   Log INFO "Logging in to Mergin..."; CreateMerginClient;
   PathExists (VStr "/tmp/mediasync");
   Log INFO "Project directory not found. Downloading from Mergin...";
   McDownload mc;
   MediaSyncPush mc LocalDriver ["photo1.jpg"; "photo2.jpg"];
   Log INFO "Entering sync loop..."] /\
  count is_download (trace (main Samples.fresh_machine 3)) = 1%nat.
Proof. split; reflexivity. Qed.

(** One pass with the server down and a token that expires within the
    hour. *)
Example pass_with_server_down :
  let mc := Samples.client_expiring 0 (30 * Samples.minute) in
  loop_body Samples.server_down 10 LocalDriver 1 mc =
  ([Log INFO "Heartbeat: 2021-06-01T12:00:00 UTC";
    Log INFO "Pulling changes from Mergin..."; McPull mc;
    Log ERROR "Media sync error: Mergin client error: 503";
    CheckExpire mc; Log INFO "Refreshing Mergin auth token...";
    CreateMerginClient;
    Log WARNING "Error checking token expiration: Mergin client error: 503";
    Log INFO "Sleeping for 10 seconds..."; Sleep 10],
   Done mc).
Proof. reflexivity. Qed.

(** A token with 61 minutes left is kept, one with 59 minutes left is
    replaced by the client of the new login. *)
Example sixty_one_minutes_left :
  let mc := Samples.client_expiring 0 (10000000 + 61 * Samples.minute) in
  check_token_expiry Samples.calm 1 mc = ([CheckExpire mc], Done mc).
Proof. reflexivity. Qed.

Example fifty_nine_minutes_left :
  let mc := Samples.client_expiring 0 (10000000 + 59 * Samples.minute) in
  check_token_expiry Samples.calm 1 mc =
  ([CheckExpire mc; Log INFO "Refreshing Mergin auth token...";
    CreateMerginClient],
   Done (Samples.client_expiring 1 (10 * Samples.hour))).
Proof. reflexivity. Qed.

(** A client that never logged in, or whose expiry carries no time zone:
    the check warns and keeps it. *)
Example naive_expiry_warns :
  let mc := MerginClient 0 (Some (AuthSession "Bearer abc" (Some (Naive 0)))) in
  check_token_expiry Samples.calm 1 mc =
  ([CheckExpire mc;
    Log WARNING
      "Error checking token expiration: can't subtract offset-naive and offset-aware datetimes"],
   Done mc).
Proof. reflexivity. Qed.

End DaemonProps.

(* ===================================================================== *)
(** ** More about validate_config *)
(* ===================================================================== *)

Module ConfigMore.
Import Py PyNotations Config ConfigSpec ConfigProps MoreSpec.

Lemma validate_config_after_mergin config :
  mergin_valid config = true ->
  validate_config config =
  (_ <- check_driver config ;;
   _ <- check_operation_mode config ;;
   _ <- check_local config ;;
   _ <- check_minio config ;;
   _ <- check_allowed_extensions config ;;
   check_references_on config).
Proof.
  intro H. apply check_mergin_ok in H. unfold validate_config.
  rewrite H. reflexivity.
Qed.

(** The driver check (lines 27-28).  With the Mergin settings in order, a
    [driver] that is there and is neither ['local'] nor ['minio'] (another
    string, or a value that is no string at all) is refused with
    [ConfigError("Config error: Unsupported driver")], whatever the rest of
    the configuration holds. *)
Theorem unsupported_driver_refused (config d : value) :
  mergin_valid config = true ->
  getattr config "driver" = Ret d ->
  in_strs d ["local"; "minio"] = false ->
  validate_config config = Raise (Exn ConfigError "Config error: Unsupported driver").
Proof.
  intros Hm Hd Hn. rewrite (validate_config_after_mergin config Hm).
  unfold check_driver, config_error, bind at 1 2. rewrite Hd, Hn. reflexivity.
Qed.

Lemma unsupported_driver_refused_witness :
  validate_config (setattr Samples.local_config "driver" (VInt 3)) =
  Raise (Exn ConfigError "Config error: Unsupported driver").
Proof.
  apply (unsupported_driver_refused _ (VInt 3)); reflexivity.
Defined.

(** The mode check (lines 30-31).  With the Mergin settings in order and a
    supported driver, an [operation_mode] that is there and is neither
    ['move'] nor ['copy'] is refused with
    [ConfigError("Config error: Unsupported operation mode")], before any
    driver section is read. *)
Theorem unsupported_mode_refused (config o : value) :
  mergin_valid config = true ->
  one_of config "driver" ["local"; "minio"] = true ->
  getattr config "operation_mode" = Ret o ->
  in_strs o ["move"; "copy"] = false ->
  validate_config config =
    Raise (Exn ConfigError "Config error: Unsupported operation mode").
Proof.
  intros Hm Hd Ho Hn. rewrite (validate_config_after_mergin config Hm).
  apply check_driver_ok in Hd. rewrite Hd.
  unfold check_operation_mode, config_error, bind at 1 2 3.
  rewrite Ho, Hn. reflexivity.
Qed.

Lemma unsupported_mode_refused_witness :
  validate_config
    (setattr (setattr Samples.local_config "operation_mode" (VStr "sync"))
       "local" VNone) =
  Raise (Exn ConfigError "Config error: Unsupported operation mode").
Proof.
  apply (unsupported_mode_refused _ (VStr "sync")); reflexivity.
Defined.

Lemma check_references_raises l e :
  check_references l = Raise e ->
  e = Exn ConfigError "Config error: Incorrect media reference settings".
Proof.
  induction l as [|ref l IH]; cbn [check_references]; [discriminate|].
  destruct (negb (has_all_attrs ref reference_attrs)); [|exact IH].
  unfold config_error. intro H. injection H as <-. reflexivity.
Qed.

Lemma check_references_on_raises config e :
  check_references_on config = Raise e ->
  e = Exn ConfigError "Config error: References list can not be empty" \/
  e = Exn ConfigError "Config error: Incorrect media reference settings" \/
  from_read e.
Proof.
  unfold check_references_on, config_error, bind.
  destruct (getattr config "references_on") as [r|e'] eqn:Hr.
  - destruct (eq_True r); [|discriminate].
    destruct (empty_setting config "references") as [[]|e'] eqn:He.
    + intro H. injection H as <-. left. reflexivity.
    + destruct (getattr config "references") as [v|e'] eqn:Hv.
      * destruct (iter v) as [l|e'] eqn:Hi.
        -- intro H. right. left. exact (check_references_raises l e H).
        -- intro H. injection H as <-. right. right.
           exact (iter_from_read _ _ Hi).
      * intro H. injection H as <-. right. right.
        exact (getattr_from_read _ _ _ Hv).
    + intro H. injection H as <-. right. right.
      exact (empty_setting_from_read _ _ _ He).
  - intro H. injection H as <-. right. right.
    exact (getattr_from_read _ _ _ Hr).
Qed.

(** What [validate_config] can raise.  Whatever the configuration, an
    exception that leaves [validate_config] is a [ConfigError] carrying one
    of the eight messages of the function, or the [AttributeError] of a
    setting that is not there, or the [TypeError] of a setting that has no
    length or cannot be iterated; the function raises nothing else. *)
Theorem validate_config_exceptions (config : value) (e : exn) :
  validate_config config = Raise e ->
  (exn_cls e = ConfigError /\ In (exn_msg e) config_messages) \/
  exn_cls e = AttributeError \/ exn_cls e = TypeError.
Proof.
  intro H. unfold validate_config in H.
  repeat (apply bind_unit_Raise in H; destruct H as [H|[_ H]];
          [ first [ apply check_mergin_raises in H
                  | apply check_driver_raises in H
                  | apply check_operation_mode_raises in H
                  | apply check_local_raises in H
                  | apply check_minio_raises in H
                  | apply check_allowed_extensions_raises in H ];
            destruct H as [->|H]; [left; split; [reflexivity|simpl; tauto]
                                  | right; exact H]
          | ]).
  apply check_references_on_raises in H.
  destruct H as [->|[->|H]];
    [left; split; [reflexivity|simpl; tauto] ..| right; exact H].
Qed.

Lemma validate_config_exceptions_witness :
  (exn_cls (Exn AttributeError "allowed_extensions") = ConfigError /\
   In (exn_msg (Exn AttributeError "allowed_extensions")) config_messages) \/
  exn_cls (Exn AttributeError "allowed_extensions") = AttributeError \/
  exn_cls (Exn AttributeError "allowed_extensions") = TypeError.
Proof.
  apply (validate_config_exceptions Samples.config_without_extensions).
  reflexivity.
Defined.



(** *** Settings that are not read *)

Ltac same_reads side :=
  unfold getattr2, empty_setting;
  repeat rewrite getattr_setattr_other by side;
  try reflexivity.

Lemma driver_literal config s :
  driver_is config s = true -> getattr config "driver" = Ret (VStr s).
Proof.
  unfold driver_is. destruct (getattr config "driver") as [d|]; [|discriminate].
  intro H. apply eq_str_true in H. congruence.
Qed.

(** The section of the driver that is not selected is not read (lines 33
    and 36 test [config.driver] first).  With the local driver selected,
    whatever is put under [minio], also where there was nothing, leaves the
    verdict of [validate_config] as it was; and likewise for [local] with
    the MinIO driver selected. *)
Theorem other_driver_section_unread (config v : value) :
  (driver_is config "local" = true ->
   validate_config (setattr config "minio" v) = validate_config config) /\
  (driver_is config "minio" = true ->
   validate_config (setattr config "local" v) = validate_config config).
Proof.
  split; intro Hd; apply driver_literal in Hd; unfold validate_config.
  - replace (check_mergin (setattr config "minio" v)) with (check_mergin config)
      by (unfold check_mergin; same_reads reflexivity).
    replace (check_driver (setattr config "minio" v)) with (check_driver config)
      by (unfold check_driver; same_reads reflexivity).
    replace (check_operation_mode (setattr config "minio" v))
      with (check_operation_mode config)
      by (unfold check_operation_mode; same_reads reflexivity).
    replace (check_local (setattr config "minio" v)) with (check_local config)
      by (unfold check_local; same_reads reflexivity).
    replace (check_minio (setattr config "minio" v)) with (check_minio config)
      by (unfold check_minio;
          rewrite (getattr_setattr_other config "driver" "minio" v eq_refl), Hd;
          reflexivity).
    replace (check_allowed_extensions (setattr config "minio" v))
      with (check_allowed_extensions config)
      by (unfold check_allowed_extensions; same_reads reflexivity).
    replace (check_references_on (setattr config "minio" v))
      with (check_references_on config)
      by (unfold check_references_on; same_reads reflexivity).
    reflexivity.
  - replace (check_mergin (setattr config "local" v)) with (check_mergin config)
      by (unfold check_mergin; same_reads reflexivity).
    replace (check_driver (setattr config "local" v)) with (check_driver config)
      by (unfold check_driver; same_reads reflexivity).
    replace (check_operation_mode (setattr config "local" v))
      with (check_operation_mode config)
      by (unfold check_operation_mode; same_reads reflexivity).
    replace (check_local (setattr config "local" v)) with (check_local config)
      by (unfold check_local;
          rewrite (getattr_setattr_other config "driver" "local" v eq_refl), Hd;
          reflexivity).
    replace (check_minio (setattr config "local" v)) with (check_minio config)
      by (unfold check_minio; same_reads reflexivity).
    replace (check_allowed_extensions (setattr config "local" v))
      with (check_allowed_extensions config)
      by (unfold check_allowed_extensions; same_reads reflexivity).
    replace (check_references_on (setattr config "local" v))
      with (check_references_on config)
      by (unfold check_references_on; same_reads reflexivity).
    reflexivity.
Qed.

(** The sample local configuration is accepted with a broken [minio]
    section. *)
Lemma other_driver_section_unread_witness :
  validate_config (setattr Samples.local_config "minio" (VInt 0)) =
  validate_config Samples.local_config.
Proof.
  destruct (other_driver_section_unread Samples.local_config (VInt 0))
    as [H _].
  apply H. reflexivity.
Defined.

(** *** Edge cases of the single checks *)

(** Line 24 stops at the first empty Mergin setting: a [username] that is
    there and empty is refused with ["Incorrect mergin settings"] without
    [password] or [project_name] being read, so also when they are
    missing. *)
Theorem empty_username_refused_first (config u : value) :
  getattr2 config "mergin" "username" = Ret u -> empty u ->
  validate_config config =
    Raise (Exn ConfigError "Config error: Incorrect mergin settings").
Proof.
  intros Hu He. unfold validate_config, check_mergin, and_then, config_error.
  rewrite Hu. cbn [bind]. rewrite He. cbn [bind]. rewrite He. reflexivity.
Qed.

Lemma empty_username_refused_first_witness :
  validate_config (VBox [("mergin", VBox [("username", VStr "")])]) =
  Raise (Exn ConfigError "Config error: Incorrect mergin settings").
Proof.
  apply (empty_username_refused_first _ (VStr "")); reflexivity.
Defined.

(** Line 39 calls [len] on whatever [allowed_extensions] holds: when the
    earlier checks pass and the setting is a true value without length (a
    non-zero number, [True]), [validate_config] ends in the [TypeError] of
    [len], not in a [ConfigError]. *)
Theorem unsized_allow_list_is_type_error (config v : value) :
  earlier_checks_pass config ->
  getattr config "allowed_extensions" = Ret v ->
  truthy v = true -> unsized v ->
  raises (validate_config config) TypeError.
Proof.
  intros (H1 & H2 & H3 & H4 & H5) Hv Ht Hu.
  unfold validate_config. rewrite H1, H2, H3, H4, H5. cbn [bind].
  unfold check_allowed_extensions, empty_setting, bind. rewrite Hv, Ht.
  destruct (len v) as [n|e] eqn:Hl; [elim (Hu n Hl)|].
  destruct v; simpl in Hl; try discriminate Hl; injection Hl as <-;
    eexists; reflexivity.
Qed.

Lemma unsized_allow_list_is_type_error_witness :
  raises (validate_config
            (setattr Samples.local_config "allowed_extensions" (VInt 5)))
         TypeError.
Proof.
  apply (unsized_allow_list_is_type_error _ (VInt 5)).
  - repeat split; reflexivity.
  - reflexivity.
  - reflexivity.
  - intros n H. discriminate H.
Defined.

(** Line 46 iterates over whatever [references] holds: with the reference
    checks on, a [references] that is a non-empty string instead of a list
    is walked character by character and refused with ["Incorrect media
    reference settings"], a character having none of the four
    attributes. *)
Theorem string_references_refused (config r : value) (a : ascii) (s : string) :
  checks_before_references_pass config ->
  getattr config "references_on" = Ret r -> eq_True r = true ->
  getattr config "references" = Ret (VStr (String a s)) ->
  validate_config config =
    Raise (Exn ConfigError "Config error: Incorrect media reference settings").
Proof.
  intros [(H1 & H2 & H3 & H4 & H5) H6] Hr Ht Hg.
  unfold validate_config. rewrite H1, H2, H3, H4, H5, H6. cbn [bind].
  unfold check_references_on, empty_setting, bind. rewrite Hr, Ht, Hg.
  reflexivity.
Qed.

Lemma string_references_refused_witness :
  validate_config
    (setattr Samples.minio_config "references" (VStr "photos")) =
  Raise (Exn ConfigError "Config error: Incorrect media reference settings").
Proof.
  apply (string_references_refused _ (VBool true) "p"%char "hotos");
    try reflexivity.
  repeat split; reflexivity.
Defined.

End ConfigMore.

(* ===================================================================== *)
(** ** More about the daemon *)
(* ===================================================================== *)

Module DaemonMore.
Import Py Daemon DaemonSpec DaemonProps ConfigSpec MoreSpec.

(** *** The calls of a cycle *)

(** The calls of [run_sync_cycle] (lines 33-39).  Every cycle calls
    [mc_pull] exactly once, with the client it was given.
    [media_sync_push] is called exactly when the pull returned, with the
    same client, the driver the cycle was given and the very list of files
    the pull returned; after a failed pull nothing is pushed.
    [gc.collect()] runs exactly in the cycles in which pull and push both
    returned. *)
Theorem cycle_call_discipline (w : world) (k : nat) (mc : client) (d : driver) :
  pulls (trace (run_sync_cycle w k mc d)) = [McPull mc] /\
  (forall c d' files,
      In (MediaSyncPush c d' files) (trace (run_sync_cycle w k mc d)) <->
      c = mc /\ d' = d /\ w_mc_pull w k mc = Ret files) /\
  (In GcCollect (trace (run_sync_cycle w k mc d)) <->
   cycle_error w k mc d = None).
Proof.
  unfold pulls, cycle_error, run_sync_cycle, mc_pull, media_sync_push, call,
    try_except.
  destruct (w_mc_pull w k mc) as [files|e]; cbn [bind log app].
  - destruct (w_media_sync_push w k mc d files) as [[]|e]; cbn [bind log app].
    + split; [reflexivity|]. split.
      * intros c d' fs. simpl. split.
        -- intros [H|[H|[H|[H|[H|[]]]]]]; try discriminate H.
           injection H as <- <- <-. auto.
        -- intros (-> & -> & H). injection H as <-. auto.
      * split; [reflexivity|]. simpl. auto 6.
    + assert (Hgc : forall tail : list event,
                 (forall ev, In ev tail -> exists m, ev = Log ERROR m) ->
                 ~ In GcCollect
                     (Log INFO "Pulling changes from Mergin..." :: McPull mc ::
                      MediaSyncPush mc d files :: tail)).
      { intros tail Ht [H|[H|[H|H]]]; try discriminate H.
        destruct (Ht _ H) as [m Hm]. discriminate Hm. }
      destruct (instance_of [MediaSyncError] e); cbn [trace fst app].
      * split; [reflexivity|]. split.
        -- intros c d' fs. simpl. split.
           ++ intros [H|[H|[H|[H|[]]]]]; try discriminate H.
              injection H as <- <- <-. auto.
           ++ intros (-> & -> & H). injection H as <-. auto.
        -- split; [|discriminate]. intro H. exfalso. revert H. apply Hgc.
           intros ev [<-|[]]. eexists; reflexivity.
      * split; [reflexivity|]. split.
        -- intros c d' fs. simpl. split.
           ++ intros [H|[H|[H|[]]]]; try discriminate H.
              injection H as <- <- <-. auto.
           ++ intros (-> & -> & H). injection H as <-. auto.
        -- split; [|discriminate]. intro H. exfalso. revert H. apply Hgc.
           intros ev [].
  - destruct (instance_of [MediaSyncError] e); cbn [trace fst app].
    + split; [reflexivity|]. split.
      * intros c d' fs. simpl. split.
        -- intros [H|[H|[H|[]]]]; discriminate H.
        -- intros (_ & _ & H). discriminate H.
      * split; [|discriminate]. simpl.
        intros [H|[H|[H|[]]]]; discriminate H.
    + split; [reflexivity|]. split.
      * intros c d' fs. simpl. split.
        -- intros [H|[H|[]]]; discriminate H.
        -- intros (_ & _ & H). discriminate H.
      * split; [|discriminate]. simpl.
        intros [H|[H|[]]]; discriminate H.
Qed.

(** *** How a pass can fail *)

(** The two ways out of the loop (lines 90-104).  A pass ends with an
    exception exactly when the cycle raised something that is not a
    [MediaSyncError], or when the cycle let nothing out and
    [time.sleep] raised; in every other case the pass hands a client to the
    next pass. *)
Theorem pass_fails_in_two_ways
    (w : world) (sleep_time : Z) (d : driver) (k : nat) (mc : client)
    (e : exn) :
  ending (loop_body w sleep_time d k mc) = Failed e <->
  (cycle_error w k mc d = Some e /\ exn_cls e <> MediaSyncError) \/
  (cycle_contained w k mc d /\ w_sleep w k sleep_time = Raise e).
Proof.
  destruct (cycle_contained_or_escapes w k mc d) as [Hc|(e' & He & Hc)].
  - rewrite (loop_body_contained w sleep_time d k mc Hc), ending_pair. split.
    + destruct (w_sleep w k sleep_time) as [u|e'] eqn:Hs; [discriminate|].
      intro H. injection H as <-. right. split; [exact Hc | reflexivity].
    + intros [[He Hn]|[_ Hs]].
      * elim Hn. exact (Hc e He).
      * rewrite Hs. reflexivity.
  - rewrite (loop_body_escapes w sleep_time d k mc e' He Hc), ending_pair.
    split.
    + intro H. injection H as <-. left. split; assumption.
    + intros [[He' _]|[Hcont _]].
      * congruence.
      * elim Hc. exact (Hcont e' He).
Qed.

(** An exception of the cycle that is not a [MediaSyncError] ends the
    daemon on the spot (lines 41 and 90-92): whatever the world and
    however many passes would follow, the loop ends with that exception
    right after the failing call, having written the heartbeat and the
    ["Pulling changes"] line of the pass and nothing more: no ERROR line,
    no token check, no sleep, no later pass. *)
Theorem unexpected_exception_ends_daemon
    (w : world) (sleep_time : Z) (d : driver) (k : nat) (mc : client)
    (e : exn) (fuel : nat) :
  cycle_error w k mc d = Some e -> exn_cls e <> MediaSyncError ->
  sync_loop w sleep_time d (S fuel) k mc =
  (Log INFO ("Heartbeat: " ++ w_utcnow w k ++ " UTC") ::
   Log INFO "Pulling changes from Mergin..." :: cycle_calls w k mc d,
   Failed e).
Proof.
  intros He Hc. apply sync_loop_stops.
  exact (loop_body_escapes w sleep_time d k mc e He Hc).
Qed.

Lemma unexpected_exception_ends_daemon_witness :
  sync_loop Samples.network_down 10 LocalDriver 5 1
    (Samples.client_expiring 0 (10 * Samples.hour)) =
  ([Log INFO "Heartbeat: 2021-06-01T12:00:00 UTC";
    Log INFO "Pulling changes from Mergin...";
    McPull (Samples.client_expiring 0 (10 * Samples.hour))],
   Failed (Exn OSError "Network is unreachable")).
Proof.
  refine (unexpected_exception_ends_daemon Samples.network_down 10 LocalDriver
            1 (Samples.client_expiring 0 (10 * Samples.hour))
            (Exn OSError "Network is unreachable") 4 _ _).
  - reflexivity.
  - discriminate.
Defined.

(** *** Startup *)

Lemma startup_done_inv w sleep_time d mc :
  ending (startup w) = Done (sleep_time, d, mc) ->
  exists path config,
    driver_made w path config sleep_time d /\
    w_create_mergin_client w 0 = Ret mc.
Proof.
  unfold_startup. run_startup.
  repeat (next_answer; run_startup); intro H; try discriminate H;
    injection H as <- <- <-;
    repeat match goal with u : unit |- _ => destruct u end;
    do 2 eexists; unfold driver_made, config_loaded; eauto 10.
Qed.

(** ERROR lines of startup (lines 63-87).  Startup writes an ERROR line
    exactly when it ends through one of its [sys.exit(1)] handlers, and
    then exactly one; a startup that succeeds, and one that is ended by an
    exception no [except] clause names, write none. *)
Theorem startup_error_line_iff_exit (w : world) :
  count is_error_line (trace (startup w)) =
  match w_parse_args w, ending (startup w) with
  | Args _, Exited _ => 1%nat
  | _, _ => 0%nat
  end.
Proof.
  unfold_startup. run_startup.
  repeat (next_answer; run_startup); reflexivity.
Qed.

(** A setting that [validate_config] cannot read is not a handled
    configuration error.  When the loaded configuration makes
    [validate_config] raise the [AttributeError] of a missing setting (or
    the [TypeError] of an unsized one), the clause
    [except (IOError, ConfigError)] does not apply: [main] ends with that
    exception right after loading the configuration, with no ERROR line, no
    driver and no login. *)
Theorem unreadable_setting_is_uncaught
    (w : world) (path : string) (config : value) (e : exn) (fuel : nat) :
  w_parse_args w = Args path ->
  w_update_config_path w path = Ret config ->
  Config.validate_config config = Raise e ->
  from_read e ->
  main w fuel =
  ([ParseArgs;
    Log INFO ("== Starting Mergin Media Sync daemon v" ++ w_version w ++ " ==");
    UpdateConfigPath path],
   Failed e).
Proof.
  intros H1 H2 H3 Hr.
  assert (Hi : instance_of [OSError; ConfigError] e = false)
    by (unfold instance_of; destruct Hr as [-> | ->]; reflexivity).
  unfold main. unfold_startup. run_startup.
  rewrite H1. run_startup. rewrite H2. run_startup. rewrite H3. run_startup.
  rewrite Hi. reflexivity.
Qed.

(** The sample configuration without [allowed_extensions] stops the daemon
    without a word in the log. *)
Lemma unreadable_setting_is_uncaught_witness :
  main no_extensions_key 2 =
  ([ParseArgs; Log INFO "== Starting Mergin Media Sync daemon v1.0.0 ==";
    UpdateConfigPath "config.yaml"],
   Failed (Exn AttributeError "allowed_extensions")).
Proof.
  exact (unreadable_setting_is_uncaught no_extensions_key "config.yaml"
           Samples.config_without_extensions
           (Exn AttributeError "allowed_extensions") 2
           eq_refl eq_refl eq_refl (or_introl eq_refl)).
Defined.

(** The polling interval (line 70) is read outside every [try]: when
    [config.as_int("daemon.sleep_time")] raises, whatever the class of the
    exception, [main] ends with it after a valid configuration was loaded
    and before the driver is constructed or a login attempted. *)
Theorem bad_sleep_time_is_uncaught
    (w : world) (path : string) (config : value) (e : exn) (fuel : nat) :
  config_loaded w path config ->
  w_as_int w config "daemon.sleep_time" = Raise e ->
  main w fuel =
  ([ParseArgs;
    Log INFO ("== Starting Mergin Media Sync daemon v" ++ w_version w ++ " ==");
    UpdateConfigPath path; AsInt "daemon.sleep_time"],
   Failed e).
Proof.
  intros (H1 & H2 & H3) H4.
  unfold main. unfold_startup. run_startup.
  rewrite H1. run_startup. rewrite H2. run_startup. rewrite H3. run_startup.
  rewrite H4. reflexivity.
Qed.

Lemma bad_sleep_time_is_uncaught_witness :
  main bad_interval 2 =
  ([ParseArgs; Log INFO "== Starting Mergin Media Sync daemon v1.0.0 ==";
    UpdateConfigPath "config.yaml"; AsInt "daemon.sleep_time"],
   Failed (Exn ValueError "invalid literal for int() with base 10: 'soon'")).
Proof.
  exact (bad_sleep_time_is_uncaught bad_interval "config.yaml"
           Samples.local_config
           (Exn ValueError "invalid literal for int() with base 10: 'soon'") 2
           (conj eq_refl (conj eq_refl eq_refl)) eq_refl).
Defined.

(** Nothing reaches the Mergin server before the configuration is
    validated and the driver constructed: if a run of startup contains a
    login, then the configuration was loaded and accepted by
    [validate_config], the polling interval was read and [create_driver]
    returned. *)
Theorem login_only_after_driver (w : world) :
  In CreateMerginClient (trace (startup w)) ->
  exists path config sleep_time d, driver_made w path config sleep_time d.
Proof.
  unfold_startup. run_startup.
  repeat (next_answer; run_startup); intro H; simpl in H;
    repeat (destruct H as [H|H]; try discriminate H); try contradiction;
    repeat match goal with u : unit |- _ => destruct u end;
    do 4 eexists; unfold driver_made, config_loaded; eauto 10.
Qed.

Lemma login_only_after_driver_witness :
  exists path config sleep_time d,
    driver_made Samples.calm path config sleep_time d.
Proof.
  apply login_only_after_driver. simpl. auto 10.
Defined.

(** The push of the bootstrap (lines 83-84) sends what the download
    delivered: a call of [media_sync_push] during startup is made with the
    client of the startup login, the driver constructed before, and exactly
    the list of files that [mc_download] returned for that client. *)
Theorem bootstrap_pushes_the_download
    (w : world) (c : client) (d : driver) (files : list string) :
  In (MediaSyncPush c d files) (trace (startup w)) ->
  w_create_mergin_client w 0 = Ret c /\
  w_mc_download w c = Ret files /\
  exists path config sleep_time, driver_made w path config sleep_time d.
Proof.
  unfold_startup. run_startup.
  repeat (next_answer; run_startup); intro H; simpl in H;
    repeat (destruct H as [H|H]; try discriminate H); try contradiction;
    injection H as <- <- <-;
    repeat match goal with u : unit |- _ => destruct u end;
    (split; [first [assumption | reflexivity]|]);
    (split; [first [assumption | reflexivity]|]);
    do 3 eexists; unfold driver_made, config_loaded; eauto 10.
Qed.

Lemma bootstrap_pushes_the_download_witness :
  w_mc_download Samples.fresh_machine
    (Samples.client_expiring 0 (10 * Samples.hour)) =
  Ret ["photo1.jpg"; "photo2.jpg"].
Proof.
  destruct (bootstrap_pushes_the_download Samples.fresh_machine
              (Samples.client_expiring 0 (10 * Samples.hour)) LocalDriver
              ["photo1.jpg"; "photo2.jpg"]) as (_ & H & _).
  - simpl. auto 15.
  - exact H.
Defined.

(** *** What a pass contains *)

Lemma filter_cycle_calls p w k mc d :
  (forall c d' files, p (MediaSyncPush c d' files) = false) ->
  filter p (cycle_calls w k mc d) = if p (McPull mc) then [McPull mc] else [].
Proof.
  intro Hp. unfold cycle_calls.
  destruct (w_mc_pull w k mc); cbn [filter]; rewrite ?Hp;
    destruct (p (McPull mc)); reflexivity.
Qed.

(** The events of a cycle, outcome by outcome. *)
Lemma run_sync_cycle_trace w k mc d :
  exists tail,
    trace (run_sync_cycle w k mc d) =
    (Log INFO "Pulling changes from Mergin..." :: cycle_calls w k mc d ++ tail)%list /\
    (tail = [Log INFO "Sync complete."; GcCollect] \/
     (exists e, tail = [Log ERROR ("Media sync error: " ++ exn_msg e)]) \/
     tail = []).
Proof.
  destruct (cycle_error w k mc d) as [e|] eqn:He.
  - destruct (cycle_contained_or_escapes w k mc d) as [Hc|(e' & He' & Hc)].
    + rewrite (run_sync_cycle_caught w k mc d e He (Hc e He)), trace_pair.
      eexists. split; [reflexivity|]. right. left. exists e. reflexivity.
    + rewrite (run_sync_cycle_escapes w k mc d e' He' Hc), trace_pair.
      exists []. rewrite app_nil_r. split; [reflexivity|]. right. right.
      reflexivity.
  - rewrite (run_sync_cycle_success w k mc d He), trace_pair.
    eexists. split; [reflexivity|]. left. reflexivity.
Qed.

Lemma cycle_filter p w k mc d :
  (forall l m, p (Log l m) = false) -> p GcCollect = false ->
  (forall c d' files, p (MediaSyncPush c d' files) = false) ->
  filter p (trace (run_sync_cycle w k mc d)) =
  if p (McPull mc) then [McPull mc] else [].
Proof.
  intros Hl Hg Hp.
  destruct (run_sync_cycle_trace w k mc d) as (tail & -> & Ht).
  cbn [filter]. rewrite Hl, filter_app, (filter_cycle_calls p w k mc d Hp).
  assert (Hf : filter p tail = []).
  { destruct Ht as [-> | [[e ->] | ->]]; cbn [filter]; rewrite ?Hl, ?Hg;
      reflexivity. }
  rewrite Hf. apply app_nil_r.
Qed.

Lemma check_filter p w k mc :
  (forall l m, p (Log l m) = false) ->
  filter p (trace (check_token_expiry w k mc)) =
  ((if p (CheckExpire mc) then [CheckExpire mc] else []) ++
   match expiry_delta w k mc with
   | Ret delta =>
       if (delta <? one_hour) && p CreateMerginClient
       then [CreateMerginClient] else []
   | Raise _ => []
   end)%list.
Proof.
  intro Hl. rewrite check_token_expiry_eq. unfold warning_of.
  destruct (expiry_delta w k mc) as [delta|e].
  - destruct (delta <? one_hour).
    + destruct (w_create_mergin_client w k); rewrite trace_pair;
        cbn [filter andb]; rewrite ?Hl;
        destruct (p (CheckExpire mc)), (p CreateMerginClient); reflexivity.
    + rewrite trace_pair. cbn [filter andb].
      destruct (p (CheckExpire mc)); reflexivity.
  - rewrite trace_pair. cbn [filter]. rewrite Hl.
    destruct (p (CheckExpire mc)); reflexivity.
Qed.

(** The events of a pass that [p] keeps, for a [p] that keeps no log line,
    no push, no garbage collection and no sleep. *)
Lemma pass_filter p w sleep_time d k mc :
  (forall l m, p (Log l m) = false) -> p GcCollect = false ->
  (forall c d' files, p (MediaSyncPush c d' files) = false) ->
  (forall secs, p (Sleep secs) = false) ->
  p (CheckExpire mc) = false ->
  filter p (trace (loop_body w sleep_time d k mc)) =
  ((if p (McPull mc) then [McPull mc] else []) ++
   if cycle_escapes_dec w k mc d then []
   else match expiry_delta w k mc with
        | Ret delta =>
            if (delta <? one_hour) && p CreateMerginClient
            then [CreateMerginClient] else []
        | Raise _ => []
        end)%list.
Proof.
  intros Hl Hg Hp Hs Hc.
  unfold cycle_escapes_dec.
  destruct (cycle_error w k mc d) as [e|] eqn:He.
  - destruct (exn_class_eqb (exn_cls e) MediaSyncError) eqn:Hcls.
    + assert (Hcont : cycle_contained w k mc d).
      { intros e' He'. rewrite He in He'. injection He' as <-.
        destruct (exn_cls e); try discriminate Hcls. reflexivity. }
      rewrite (loop_body_contained w sleep_time d k mc Hcont), trace_pair.
      unfold pass_events. rewrite !filter_app.
      rewrite (cycle_filter p w k mc d Hl Hg Hp), (check_filter p w k mc Hl).
      cbn [filter]. rewrite !Hl, Hs, Hc. cbn [negb app].
      rewrite app_nil_r. reflexivity.
    + assert (Hesc : exn_cls e <> MediaSyncError)
        by (intro H; rewrite H in Hcls; discriminate Hcls).
      rewrite (loop_body_escapes w sleep_time d k mc e He Hesc), trace_pair.
      cbn [filter negb]. rewrite !Hl.
      rewrite (filter_cycle_calls p w k mc d Hp), app_nil_r. reflexivity.
  - assert (Hcont : cycle_contained w k mc d)
      by (intros e' He'; rewrite He in He'; discriminate He').
    rewrite (loop_body_contained w sleep_time d k mc Hcont), trace_pair.
    unfold pass_events. rewrite !filter_app.
    rewrite (cycle_filter p w k mc d Hl Hg Hp), (check_filter p w k mc Hl).
    cbn [filter]. rewrite !Hl, Hs, Hc. cbn [app].
    rewrite app_nil_r. reflexivity.
Qed.

Lemma pass_pulls w sleep_time d k mc :
  pulls (trace (loop_body w sleep_time d k mc)) = [McPull mc].
Proof.
  unfold pulls. rewrite pass_filter; try reflexivity.
  cbn [is_pull app].
  destruct (cycle_escapes_dec w k mc d); [reflexivity|].
  destruct (expiry_delta w k mc) as [delta|e]; [|reflexivity].
  rewrite andb_false_r. reflexivity.
Qed.

Lemma pass_logins w sleep_time d k mc :
  (count is_login (trace (loop_body w sleep_time d k mc)) <= 1)%nat.
Proof.
  unfold count. rewrite pass_filter; try reflexivity.
  cbn [is_login app].
  destruct (cycle_escapes_dec w k mc d); [simpl; auto|].
  destruct (expiry_delta w k mc) as [delta|e]; [|simpl; auto].
  destruct (delta <? one_hour); simpl; auto.
Qed.

Lemma sync_loop_budget w sleep_time d fuel :
  forall k mc,
    let tr := trace (sync_loop w sleep_time d fuel k mc) in
    count is_pull tr = count is_heartbeat tr /\
    (count is_login tr <= count is_heartbeat tr)%nat.
Proof.
  induction fuel as [|fuel IH]; intros k mc; cbv zeta.
  - split; [reflexivity | apply Nat.le_refl].
  - cbn [sync_loop]. rewrite trace_bind, !count_app.
    destruct (one_heartbeat_in_pass w sleep_time d k mc) as [Hh _].
    rewrite Hh.
    assert (Hp : count is_pull (trace (loop_body w sleep_time d k mc)) = 1%nat).
    { unfold count.
      change (filter is_pull (trace (loop_body w sleep_time d k mc)))
        with (pulls (trace (loop_body w sleep_time d k mc))).
      rewrite pass_pulls. reflexivity. }
    rewrite Hp.
    pose proof (pass_logins w sleep_time d k mc) as Hl.
    destruct (ending (loop_body w sleep_time d k mc)) as [mc'| |].
    + destruct (IH (S k) mc') as [IH1 IH2]. split; lia.
    + rewrite !count_nil. split; lia.
    + rewrite !count_nil. split; lia.
Qed.

Lemma startup_logs_in_at_most_once w :
  (count is_login (trace (startup w)) <= 1)%nat.
Proof.
  unfold_startup. run_startup.
  repeat (next_answer; run_startup); unfold count; simpl; auto.
Qed.

Lemma startup_no_pull w : count is_pull (trace (startup w)) = 0%nat.
Proof.
  apply count_zero_of_Forall_false.
  eapply Forall_impl; [|apply startup_no_loop_events].
  intros ev H. unfold is_loop_event in H.
  destruct (is_heartbeat ev), (is_pull ev); try discriminate H. reflexivity.
Qed.

(** One pull per pass.  In every run of [main], however it ends, the
    number of calls of [mc_pull] equals the number of heartbeat lines: a
    pass that has written its heartbeat always calls the pull, exactly
    once, and nothing else ever pulls. *)
Theorem one_pull_per_heartbeat (w : world) (fuel : nat) :
  count is_pull (trace (main w fuel)) =
  count is_heartbeat (trace (main w fuel)).
Proof.
  rewrite main_trace, !count_app, startup_no_pull, startup_no_heartbeat.
  destruct (ending (startup w)) as [[[st d] mc]| |]; try reflexivity.
  apply (sync_loop_budget w st d fuel 1 mc).
Qed.

(** Logins are rationed.  In every run of [main] the number of calls of
    [create_mergin_client] is at most one (the startup login) plus the
    number of passes begun: a pass never logs in twice. *)
Theorem at_most_one_login_per_pass (w : world) (fuel : nat) :
  (count is_login (trace (main w fuel)) <=
   1 + count is_heartbeat (trace (main w fuel)))%nat.
Proof.
  rewrite main_trace, !count_app, startup_no_heartbeat.
  pose proof (startup_logs_in_at_most_once w) as Hs.
  destruct (ending (startup w)) as [[[st d] mc]| |].
  - destruct (sync_loop_budget w st d fuel 1 mc) as [_ Hl]. cbv zeta in Hl.
    lia.
  - rewrite !count_nil. lia.
  - rewrite !count_nil. lia.
Qed.

(** *** The polling interval *)

Lemma pass_sleeps w sleep_time d k mc secs :
  In (Sleep secs) (trace (loop_body w sleep_time d k mc)) -> secs = sleep_time.
Proof.
  destruct (cycle_contained_or_escapes w k mc d) as [Hc|(e & He & Hc)].
  - rewrite (loop_body_contained w sleep_time d k mc Hc), trace_pair.
    unfold pass_events. rewrite !in_app_iff.
    intros [[H|[]]|[H|[H|[H|[H|[]]]]]]; try discriminate H.
    + pose proof (cycle_events_only w k mc d) as HF.
      rewrite Forall_forall in HF. discriminate (HF _ H).
    + exfalso. revert H. rewrite check_token_expiry_eq. unfold warning_of.
      destruct (expiry_delta w k mc) as [delta|e'].
      * destruct (delta <? one_hour);
          [destruct (w_create_mergin_client w k)|]; simpl;
          intuition discriminate.
      * simpl. intuition discriminate.
    + injection H as <-. reflexivity.
  - rewrite (loop_body_escapes w sleep_time d k mc e He Hc), trace_pair.
    unfold cycle_calls. destruct (w_mc_pull w k mc); simpl;
      intuition discriminate.
Qed.

Lemma sync_loop_sleeps w sleep_time d fuel secs :
  forall k mc,
    In (Sleep secs) (trace (sync_loop w sleep_time d fuel k mc)) ->
    secs = sleep_time.
Proof.
  induction fuel as [|fuel IH]; intros k mc; [intros []|].
  cbn [sync_loop]. rewrite trace_bind, in_app_iff. intros [H|H].
  - exact (pass_sleeps w sleep_time d k mc secs H).
  - destruct (ending (loop_body w sleep_time d k mc)) as [mc'| |];
      [exact (IH (S k) mc' H) | elim H | elim H].
Qed.

Lemma pass_reads_no_setting w sleep_time d k mc :
  count is_as_int (trace (loop_body w sleep_time d k mc)) = 0%nat.
Proof.
  unfold count. rewrite pass_filter; try reflexivity.
  cbn [is_as_int app].
  destruct (cycle_escapes_dec w k mc d); [reflexivity|].
  destruct (expiry_delta w k mc) as [delta|e]; [|reflexivity].
  rewrite andb_false_r. reflexivity.
Qed.

Lemma sync_loop_reads_no_setting w sleep_time d fuel :
  forall k mc,
    count is_as_int (trace (sync_loop w sleep_time d fuel k mc)) = 0%nat.
Proof.
  induction fuel as [|fuel IH]; intros k mc; [reflexivity|].
  cbn [sync_loop]. rewrite trace_bind, count_app, pass_reads_no_setting.
  destruct (ending (loop_body w sleep_time d k mc)); [apply IH | | ];
    reflexivity.
Qed.

Lemma startup_reads_interval_once w :
  (count is_as_int (trace (startup w)) <= 1)%nat.
Proof.
  unfold_startup. run_startup.
  repeat (next_answer; run_startup); unfold count; simpl; auto.
Qed.

(** The polling interval is fixed at startup (line 70).  In every run of
    [main], [config.as_int] is called at most once, and never by a pass of
    the loop; and every call of [time.sleep] is made with the number that
    this one call, [config.as_int("daemon.sleep_time")] on the validated
    configuration, returned.  A change of the setting takes effect only
    with a restart. *)
Theorem sleeps_use_startup_interval (w : world) (fuel : nat) :
  (count is_as_int (trace (main w fuel)) <= 1)%nat /\
  (forall sleep_time d n k mc,
      count is_as_int (trace (sync_loop w sleep_time d n k mc)) = 0%nat) /\
  (forall secs,
      In (Sleep secs) (trace (main w fuel)) ->
      exists path config,
        config_loaded w path config /\
        w_as_int w config "daemon.sleep_time" = Ret secs).
Proof.
  split; [|split].
  - rewrite main_trace, count_app.
    pose proof (startup_reads_interval_once w) as Hs.
    destruct (ending (startup w)) as [[[st d] mc]| |];
      rewrite ?sync_loop_reads_no_setting, ?count_nil, Nat.add_0_r; exact Hs.
  - intros. apply sync_loop_reads_no_setting.
  - intro secs. rewrite main_trace, in_app_iff. intros [H|H].
    + pose proof (startup_no_loop_events w) as HF.
      rewrite Forall_forall in HF. discriminate (HF _ H).
    + destruct (ending (startup w)) as [[[st d] mc]| |] eqn:Hs;
        [|elim H|elim H].
      apply sync_loop_sleeps in H. subst secs.
      destruct (startup_done_inv w st d mc Hs) as (path & config & Hd & _).
      exists path, config. destruct Hd as (Hc & Ha & _). split; assumption.
Qed.

Lemma sleeps_use_startup_interval_witness :
  exists path config,
    config_loaded Samples.calm path config /\
    w_as_int Samples.calm config "daemon.sleep_time" = Ret 10.
Proof.
  destruct (sleeps_use_startup_interval Samples.calm 1) as (_ & _ & H).
  apply (H 10). simpl. auto 30.
Defined.

(** *** Exit statuses *)

(** The exit status of the daemon.  [main] leaves through [sys.exit] only
    with status 1 or when the argument parser exits (usage error or
    [--help]); in particular a status 0 can only come from the argument
    parser, and every other end of the process is a status 1. *)
Theorem exit_status_of_main (w : world) (fuel : nat) :
  (forall c, ending (main w fuel) = Exited c ->
             c = 1 \/ w_parse_args w = ArgExit c) /\
  (forall c, exit_status (ending (main w fuel)) = Some c ->
             c = 1 \/ w_parse_args w = ArgExit c).
Proof.
  assert (H : forall c, ending (main w fuel) = Exited c ->
                        c = 1 \/ w_parse_args w = ArgExit c).
  { intros c. unfold main. rewrite ending_bind.
    destruct (ending (startup w)) as [[[st d] mc]|e|c'] eqn:Hs.
    - intro H. elim (sync_loop_never_exits w st d fuel 1 mc c H).
    - discriminate.
    - intro H'. injection H' as <-. exact (startup_exit_status w c' Hs). }
  split; [exact H|].
  intros c. destruct (ending (main w fuel)) as [a|e|c'] eqn:Hm; simpl.
  - discriminate.
  - intro H'. injection H' as <-. left. reflexivity.
  - intro H'. injection H' as <-. exact (H c' eq_refl).
Qed.

(** The missing configuration file: status 1, from a handler. *)
Lemma exit_status_of_main_witness :
  1 = 1 \/ w_parse_args Samples.no_config_file = ArgExit 1.
Proof.
  destruct (exit_status_of_main Samples.no_config_file 2) as [H _].
  apply H. reflexivity.
Defined.

(** *** Clients across passes *)

Lemma client_after_refresh w k mc mc' :
  refresh_due w k mc -> w_create_mergin_client w k = Ret mc' ->
  client_after_check w k mc = mc'.
Proof.
  intros Hdue Hl. apply refresh_due_iff in Hdue.
  destruct Hdue as (delta & Hd & Hlt).
  unfold client_after_check. rewrite Hd, Hlt, Hl. reflexivity.
Qed.

(** A refreshed token serves from the next pass on (lines 92-99).  When
    the token check of pass [k] logs in again, the cycle of pass [k] has
    already run with the old client, and the pull of pass [k + 1] is made
    with the client the login returned. *)
Theorem refreshed_client_serves_next_pass
    (w : world) (sleep_time : Z) (d : driver) (k : nat) (mc mc' : client)
    (u : unit) :
  refresh_due w k mc -> w_create_mergin_client w k = Ret mc' ->
  cycle_contained w k mc d -> w_sleep w k sleep_time = Ret u ->
  pulls (trace (sync_loop w sleep_time d 2 k mc)) = [McPull mc; McPull mc'].
Proof.
  intros Hdue Hl Hc Hs.
  assert (Hb : loop_body w sleep_time d k mc =
               (trace (loop_body w sleep_time d k mc), Done mc')).
  { rewrite (loop_body_contained w sleep_time d k mc Hc), Hs.
    rewrite (client_after_refresh w k mc mc' Hdue Hl). reflexivity. }
  rewrite (sync_loop_next _ _ _ 1 _ _ _ _ Hb), trace_pair.
  unfold pulls. rewrite filter_app.
  change (filter is_pull (trace (loop_body w sleep_time d k mc)))
    with (pulls (trace (loop_body w sleep_time d k mc))).
  rewrite pass_pulls. cbn [sync_loop]. rewrite trace_bind, filter_app.
  change (filter is_pull (trace (loop_body w sleep_time d (S k) mc')))
    with (pulls (trace (loop_body w sleep_time d (S k) mc'))).
  rewrite pass_pulls.
  destruct (ending (loop_body w sleep_time d (S k) mc')); reflexivity.
Qed.

(** In the calm world a token with 59 minutes left at pass 1 is replaced,
    and pass 2 pulls with the new client. *)
Lemma refreshed_client_serves_next_pass_witness :
  pulls (trace (sync_loop Samples.calm 10 LocalDriver 2 1
                  (Samples.client_expiring 0 (10000000 + 59 * Samples.minute)))) =
  [McPull (Samples.client_expiring 0 (10000000 + 59 * Samples.minute));
   McPull (Samples.client_expiring 1 (10 * Samples.hour))].
Proof.
  apply (refreshed_client_serves_next_pass Samples.calm 10 LocalDriver 1
           (Samples.client_expiring 0 (10000000 + 59 * Samples.minute))
           (Samples.client_expiring 1 (10 * Samples.hour)) tt).
  - exists (59 * Samples.minute). split; reflexivity.
  - reflexivity.
  - intros e He. discriminate He.
  - reflexivity.
Defined.

Lemma unrefreshable_delta w k mc :
  unrefreshable mc -> exists e, expiry_delta w k mc = Raise e.
Proof.
  unfold expiry_delta. intros [[e ->]|[t ->]]; eexists; reflexivity.
Qed.

Lemma cycle_has_no_warning w k mc d :
  count is_warning_line (trace (run_sync_cycle w k mc d)) = 0%nat.
Proof.
  apply (count_zero_of_Forall _ _ _ (cycle_events_only w k mc d)).
  intros [[]| | | | | | | | | | | | |]; simpl; congruence.
Qed.

Lemma unrefreshable_pass w sleep_time d k mc u :
  unrefreshable mc -> cycle_contained w k mc d ->
  w_sleep w k sleep_time = Ret u ->
  ending (loop_body w sleep_time d k mc) = Done mc /\
  count is_login (trace (loop_body w sleep_time d k mc)) = 0%nat /\
  count is_warning_line (trace (loop_body w sleep_time d k mc)) = 1%nat.
Proof.
  intros Hu Hc Hs. destruct (unrefreshable_delta w k mc Hu) as [e He].
  rewrite (loop_body_contained w sleep_time d k mc Hc), Hs, trace_pair,
    ending_pair.
  unfold client_after_check, pass_events. rewrite He.
  split; [reflexivity|].
  rewrite !count_app, cycle_has_no_login, cycle_has_no_warning.
  rewrite check_token_expiry_eq, He. split; reflexivity.
Qed.

(** A client whose expiry cannot be read is never refreshed (lines
    95-101).  When the loop holds a client without session, without
    ["expire"] entry or with an expiry that carries no time zone, every
    token check ends in the warning branch: in normal operation the loop
    keeps that very client pass after pass, never logs in again, and writes
    one warning per pass. *)
Theorem unreadable_expiry_never_refreshed
    (w : world) (sleep_time : Z) (d : driver) (mc : client) (n : nat) :
  forall k,
    unrefreshable mc -> undisturbed w sleep_time d k n ->
    ending (sync_loop w sleep_time d n k mc) = Done ((k + n)%nat, mc) /\
    count is_login (trace (sync_loop w sleep_time d n k mc)) = 0%nat /\
    count is_warning_line (trace (sync_loop w sleep_time d n k mc)) = n.
Proof.
  induction n as [|n IH]; intros k Hu Hok.
  - rewrite Nat.add_0_r. repeat split; reflexivity.
  - destruct (Hok k mc) as [Hc [u Hs]]; [lia|].
    destruct (unrefreshable_pass w sleep_time d k mc u Hu Hc Hs)
      as (He & Hl & Hw).
    assert (Hb : loop_body w sleep_time d k mc =
                 (trace (loop_body w sleep_time d k mc), Done mc)).
    { rewrite <- He. destruct (loop_body w sleep_time d k mc). reflexivity. }
    rewrite (sync_loop_next _ _ _ n _ _ _ _ Hb), trace_pair, ending_pair.
    destruct (IH (S k) Hu) as (IHe & IHl & IHw).
    { intros j mc' Hj. apply Hok. lia. }
    rewrite IHe, !count_app, Hl, Hw, IHl, IHw.
    repeat split. f_equal. f_equal. lia.
Qed.

(** With the server down (every pull a [MediaSyncError]), a client that
    never logged in is kept for three passes. *)
Lemma unreadable_expiry_never_refreshed_witness :
  ending (sync_loop Samples.server_down 10 LocalDriver 3 1 (MerginClient 7 None)) =
  Done (4%nat, MerginClient 7 None).
Proof.
  destruct (unreadable_expiry_never_refreshed Samples.server_down 10
              LocalDriver (MerginClient 7 None) 3 1) as (H & _).
  - left. eexists. reflexivity.
  - intros j mc' _. split.
    + intros e He. injection He as <-. reflexivity.
    + exists tt. reflexivity.
  - exact H.
Defined.

End DaemonMore.

(* ===================================================================== *)
(** ** Properties of setup_logger *)
(* ===================================================================== *)

Module LoggingProps.
Import Logging.

Lemma find_store name l ls : find name (store name l ls) = Some l.
Proof.
  induction ls as [|[n l'] ls IH]; simpl.
  - rewrite String.eqb_refl. reflexivity.
  - destruct (String.eqb name n) eqn:Hn; simpl.
    + rewrite String.eqb_refl. reflexivity.
    + rewrite Hn. exact IH.
Qed.

Lemma find_store_other name k l ls :
  name <> k -> find name (store k l ls) = find name ls.
Proof.
  intro Hn. apply String.eqb_neq in Hn.
  induction ls as [|[n l'] ls IH]; cbn [store find].
  - rewrite Hn. reflexivity.
  - destruct (String.eqb k n) eqn:Hk; cbn [find].
    + apply String.eqb_eq in Hk. subst n. rewrite Hn. reflexivity.
    + rewrite IH. reflexivity.
Qed.

Lemma getLogger_setup reg :
  getLogger "media-sync" (setup_logger reg) =
  Logger (levelno Info)
    (l_handlers (getLogger "media-sync" reg) ++
     [Handler "stdout" 0 "%(asctime)s - %(levelname)s - %(message)s"]).
Proof. unfold getLogger at 1, setup_logger. simpl named. rewrite find_store. reflexivity. Qed.

Lemma append_empty (s : string) : (s ++ "")%string = s.
Proof. induction s as [|c s IH]; simpl; [|rewrite IH]; reflexivity. Qed.

(** The format of line 25 applied to a record. *)
Lemma format_of_line_25 asctime sv msg :
  interpolate "%(asctime)s - %(levelname)s - %(message)s" Text
    (record_fields asctime sv msg) =
  Some (asctime ++ " - " ++ levelname sv ++ " - " ++ msg)%string.
Proof.
  cbn. rewrite append_empty. reflexivity.
Qed.

Lemma getLogger_setup_times n reg :
  getLogger "media-sync" (setup_logger_times (S n) reg) =
  Logger (levelno Info)
    (l_handlers (getLogger "media-sync" reg) ++
     repeat (Handler "stdout" 0 "%(asctime)s - %(levelname)s - %(message)s")
            (S n)).
Proof.
  induction n as [|n IH].
  - apply getLogger_setup.
  - change (setup_logger_times (S (S n)) reg)
      with (setup_logger (setup_logger_times (S n) reg)).
    rewrite getLogger_setup, IH. cbn [l_handlers].
    rewrite <- app_assoc. f_equal. f_equal.
    change (repeat ?h (S n) ++ [?h])%list
      with (repeat h (S n) ++ repeat h 1)%list.
    rewrite <- repeat_app. f_equal. lia.
Qed.

Lemma root_setup_times n reg : root (setup_logger_times n reg) = root reg.
Proof. induction n as [|n IH]; [reflexivity | exact IH]. Qed.

Lemma daemon_levels_pass lv : (levelno (of_level lv) <? levelno Info) = false.
Proof. destruct lv; reflexivity. Qed.

(** The lines of the daemon in the log (lines 21-28).  After [n + 1]
    calls of [setup_logger], in a process where nothing else has attached
    a handler to the logger ["media-sync"] or to the root logger: every
    record the daemon logs (INFO, WARNING or ERROR) is written to
    [stdout] as ["<asctime> - <LEVEL> - <message>"], once per call of
    [setup_logger] (the handlers add up); a DEBUG record is dropped. *)
Theorem daemon_lines_are_written
    (reg : registry) (n : nat) (asctime msg : string) (lv : Daemon.level) :
  l_handlers (getLogger "media-sync" reg) = [] ->
  l_handlers (root reg) = [] ->
  log_record (setup_logger_times (S n) reg) "media-sync" asctime
    (of_level lv) msg =
  repeat ("stdout",
          Some (asctime ++ " - " ++ levelname (of_level lv) ++ " - " ++ msg)%string)
         (S n) /\
  log_record (setup_logger_times (S n) reg) "media-sync" asctime Debug msg = [].
Proof.
  intros Hown Hroot. unfold log_record.
  rewrite getLogger_setup_times, root_setup_times, Hown, Hroot.
  unfold effective_level. cbn [l_level l_handlers app].
  change (levelno Info =? 0) with false. cbv iota.
  rewrite daemon_levels_pass. split; [|reflexivity].
  set (h := Handler "stdout" 0 "%(asctime)s - %(levelname)s - %(message)s").
  rewrite app_nil_r.
  assert (Hpass : (h_level h <=? levelno (of_level lv)) = true)
    by (destruct lv; reflexivity).
  assert (Hemit : emit asctime (of_level lv) msg h =
                  ("stdout",
                   Some (asctime ++ " - " ++ levelname (of_level lv) ++ " - " ++ msg)%string)).
  { unfold emit, h. cbn [h_stream h_format]. rewrite format_of_line_25.
    reflexivity. }
  cbn [repeat]. cbn [filter]. rewrite Hpass. cbn [map]. rewrite Hemit.
  f_equal.
  induction n as [|n IH]; [reflexivity|].
  cbn [repeat filter map]. rewrite Hpass. cbn [map]. rewrite Hemit, IH.
  reflexivity.
Qed.

(** One call, as in [main]: every line once. *)
Lemma daemon_lines_are_written_witness :
  log_record (setup_logger fresh) "media-sync" "2021-06-01 12:00:00,000"
    Error "Media sync error: 503" =
  [("stdout", Some "2021-06-01 12:00:00,000 - ERROR - Media sync error: 503")].
Proof.
  destruct (daemon_lines_are_written fresh 0 "2021-06-01 12:00:00,000"
              "Media sync error: 503" Daemon.ERROR) as [H _].
  - reflexivity.
  - reflexivity.
  - exact H.
Defined.

(** [setup_logger] takes over a logger that was configured before: it
    resets the level to INFO whatever it was, keeps the handlers already
    attached in their order, and adds its own handler last; the root
    logger and the other loggers are not touched. *)
Theorem setup_logger_keeps_handlers (reg : registry) :
  getLogger "media-sync" (setup_logger reg) =
  Logger 20
    (l_handlers (getLogger "media-sync" reg) ++
     [Handler "stdout" 0 "%(asctime)s - %(levelname)s - %(message)s"]) /\
  root (setup_logger reg) = root reg /\
  (forall name, name <> "media-sync"%string ->
     getLogger name (setup_logger reg) = getLogger name reg).
Proof.
  split; [apply getLogger_setup|]. split; [reflexivity|].
  intros name Hn. unfold getLogger, setup_logger. cbn [named].
  rewrite find_store_other by exact Hn. reflexivity.
Qed.

End LoggingProps.
